(** * MicroPsi world adapters and the time-series world

    A shallow embedding of [micropsi_core/world/worldadapter.py] and
    [micropsi_core/world/timeseries/timeseries.py], and the properties of
    the channel buffers, of the per-tick update and of the time-series
    playback that hold (or fail) on that code.

    Conventions.
    - A Python method that mutates [self] is a function from the object
      to a [result] holding the returned value and the object afterwards;
      a raised exception is [Raise e]; the object a raising call leaves
      behind is not modelled.
    - [numpy.float64] is Rocq's primitive binary64 [float]; equality of
      buffers is equality of the stored floats.
    - A Python [dict] that the code iterates over is an insertion-ordered
      association list ([pydict]); the group dictionaries, which are only
      read by key, are [gmap]s. *)

From Stdlib Require Import ZArith List Floats Permutation Sorted.
From Stdlib Require Import Strings.String.
From stdpp Require Import gmap strings list pretty.

Open Scope Z_scope.

(** ** Python: exceptions, values, dictionaries, indexing *)

Module Py.

Inductive exn : Set :=
| ValueError | AttributeError | KeyError | IndexError
| TypeError | ZeroDivisionError | OverflowError.

Inductive result (A : Type) : Type :=
| Ok (a : A)
| Raise (e : exn).
Arguments Ok {A} a.
Arguments Raise {A} e.

#[global] Instance result_ret : MRet result := fun A a => Ok a.
#[global] Instance result_bind : MBind result := fun A B f m =>
  match m with
  | Ok a => f a
  | Raise e => Raise e
  end.

(** The numbers and [None] that the adapters store and return. *)
Inductive pyval : Set :=
| PyNone
| PyInt (z : Z)
| PyFloat (f : float).

(** [float(v)]: an int is rounded to the nearest binary64 (ties to even)
    and raises [OverflowError] when that is infinite; [None] is a
    [TypeError]. *)
Definition float_of_int (z : Z) : float :=
  SF2Prim (SpecFloat.binary_normalize 53 1024 z 0 false).

Definition py_float (v : pyval) : result float :=
  match v with
  | PyNone => Raise TypeError
  | PyInt z =>
      let f := float_of_int z in
      if PrimFloat.is_infinity f then Raise OverflowError else Ok f
  | PyFloat f => Ok f
  end.

(** An insertion-ordered dictionary with string keys. *)
Definition pydict (V : Type) : Type := list (string * V).

Fixpoint dict_get {V} (d : pydict V) (k : string) : option V :=
  match d with
  | [] => None
  | (k', v) :: d' => if String.eqb k' k then Some v else dict_get d' k
  end.

(** [d[k] = v]: an existing key keeps its position, a new key goes last. *)
Fixpoint dict_set {V} (d : pydict V) (k : string) (v : V) : pydict V :=
  match d with
  | [] => [(k, v)]
  | (k', v') :: d' =>
      if String.eqb k' k then (k', v) :: d' else (k', v') :: dict_set d' k v
  end.

Definition dict_keys {V} (d : pydict V) : list string := map fst d.

(** [dict((k, v) for k in ks)] *)
Definition dict_from_keys {V} (ks : list string) (v : V) : pydict V :=
  fold_left (fun d k => dict_set d k v) ks [].

(** [d[k]] *)
Definition dict_item {V} (d : pydict V) (k : string) : result V :=
  match dict_get d k with
  | Some v => Ok v
  | None => Raise KeyError
  end.

(** [sorted(l)] on strings: ascending by code units.  Python's sort is
    stable, and so is this insertion from the right. *)
Fixpoint insert_sorted (x : string) (l : list string) : list string :=
  match l with
  | [] => [x]
  | y :: l' => if String.leb x y then x :: l else y :: insert_sorted x l'
  end.

Definition sorted (l : list string) : list string :=
  foldr insert_sorted [] l.

(** [l.index(x)]: the first position of [x], [ValueError] when absent. *)
Fixpoint list_index (l : list string) (x : string) : result nat :=
  match l with
  | [] => Raise ValueError
  | y :: l' =>
      if String.eqb y x then Ok 0%nat
      else n ← list_index l' x; Ok (S n)
  end.

(** [l[i]] for an integer [i]: a negative index counts from the end. *)
Definition getitem {A} (l : list A) (i : Z) : result A :=
  let n := Z.of_nat (length l) in
  let j := if i <? 0 then i + n else i in
  if (0 <=? j) && (j <? n) then
    match nth_error l (Z.to_nat j) with
    | Some a => Ok a
    | None => Raise IndexError
    end
  else Raise IndexError.

(** [a % b] on Python ints: the sign of the result follows [b]. *)
Definition py_mod (a b : Z) : result Z :=
  if b =? 0 then Raise ZeroDivisionError else Ok (a mod b).

(** [slice(start, stop)] with bounds computed from [len]. *)
Record slice : Set := Slice { start : nat; stop : nat }.

Definition getslice {A} (l : list A) (s : slice) : list A :=
  take (stop s - start s) (drop (start s) l).

(** [a + b] on the stored values: an int meeting a float is converted
    to a float first. *)
Definition py_add (a b : pyval) : result pyval :=
  match a, b with
  | PyInt x, PyInt y => Ok (PyInt (x + y))
  | PyInt x, PyFloat y => f ← py_float (PyInt x); Ok (PyFloat (f + y)%float)
  | PyFloat x, PyInt y => f ← py_float (PyInt y); Ok (PyFloat (x + f)%float)
  | PyFloat x, PyFloat y => Ok (PyFloat (x + y)%float)
  | _, _ => Raise TypeError
  end.

(** [l[i] = v] for an integer [i]. *)
Definition setitem {A} (l : list A) (i : Z) (v : A) : result (list A) :=
  let n := Z.of_nat (length l) in
  let j := if i <? 0 then i + n else i in
  if (0 <=? j) && (j <? n) then Ok (<[Z.to_nat j := v]> l)
  else Raise IndexError.

(** [for i, key in enumerate(keys): d[key] = values[i]], from position
    [i] on. *)
Fixpoint assign_each (d : pydict pyval) (keys : list string) (i : nat)
  (values : list pyval) : result (pydict pyval) :=
  match keys with
  | [] => Ok d
  | key :: keys =>
      v ← getitem values (Z.of_nat i);
      assign_each (dict_set d key v) keys (S i) values
  end.

(** [for i, key in enumerate(keys): d[key] += values[i]], from position
    [i] on. *)
Fixpoint add_each (d : pydict pyval) (keys : list string) (i : nat)
  (values : list pyval) : result (pydict pyval) :=
  match keys with
  | [] => Ok d
  | key :: keys =>
      old ← dict_item d key;
      v ← getitem values (Z.of_nat i);
      new ← py_add old v;
      add_each (dict_set d key new) keys (S i) values
  end.

End Py.
Export Py.

(** ** NumPy: the array operations the adapters use *)

Module Np.

(** An array: its shape and its elements in row-major order. *)
Record ndarray : Type := NdArray { shape : list Z; data : list float }.

Definition size (a : ndarray) : nat := length (data a).

(** [functools.reduce(operator.mul, shape, 1)] *)
Definition product (shape : list Z) : Z := fold_left Z.mul shape 1.

(** [np.zeros(n)]: a negative length is a [ValueError]. *)
Definition zeros (n : Z) : result (list float) :=
  if n <? 0 then Raise ValueError else Ok (repeat 0%float (Z.to_nat n)).

(** [a.flatten()] *)
Definition flatten (a : ndarray) : list float := data a.

(** [bool(a)]: the element's own truth ([x != 0], so NaN is true) for one
    element, [ValueError] for more than one, and false for none. *)
Definition truth (a : ndarray) : result bool :=
  match data a with
  | [] => Ok false
  | [x] => Ok (negb (PrimFloat.eqb x 0%float))
  | _ :: _ :: _ => Raise ValueError
  end.

(** [a.reshape(shape)]: at most one dimension may be [-1] and is then
    inferred; the sizes must agree. *)
Definition reshape (d : list float) (shape : list Z) : result ndarray :=
  let n := Z.of_nat (length d) in
  let unknown := List.filter (fun x => x =? -1) shape in
  let known := List.filter (fun x => negb (x =? -1)) shape in
  if existsb (fun x => x <? 0) known then Raise ValueError
  else match unknown with
  | [] => if product shape =? n then Ok (NdArray shape d) else Raise ValueError
  | [_] =>
      let p := product known in
      if (p =? 0) || negb (n mod p =? 0) then Raise ValueError
      else Ok (NdArray (map (fun x => if x =? -1 then n / p else x) shape) d)
  | _ => Raise ValueError
  end.

(** The coordinates of flat offset [i] in [shape], row-major. *)
Fixpoint unravel (shape : list Z) (i : Z) : list Z :=
  match shape with
  | [] => []
  | d :: rest =>
      let p := fold_right Z.mul 1 rest in
      (i / p) :: unravel rest (i mod p)
  end.

(** [np.unravel_index(indices, shape)]: one array of coordinates per
    dimension; an index outside [0, product shape) is a [ValueError]. *)
Definition unravel_index (indices : list Z) (shape : list Z)
  : result (list (list Z)) :=
  if existsb (fun d => d <? 0) shape then Raise ValueError
  else if forallb (fun i => (0 <=? i) && (i <? product shape)) indices then
    Ok (map (fun j => map (fun i => nth j (unravel shape i) 0) indices)
            (seq 0 (length shape)))
  else Raise ValueError.

(** [np.arange(n)] *)
Definition arange (n : nat) : list Z := map Z.of_nat (seq 0 n).


(** [a[s] = values] on a one-dimensional array: the slice is clamped to
    the array, and [values] must have as many elements as the slice or
    exactly one, which then fills the slice. *)
Definition assign_slice (a : list float) (s : slice) (values : list float)
  : result (list float) :=
  let lo := (start s `min` length a)%nat in
  let hi := (lo `max` (stop s `min` length a))%nat in
  let n := (hi - lo)%nat in
  if decide (length values = n) then Ok (take lo a ++ values ++ drop hi a)
  else match values with
       | [x] => Ok (take lo a ++ repeat x n ++ drop hi a)
       | _ => Raise ValueError
       end.

(** [a[:]], the slice of the whole array. *)
Definition whole {A} (a : list A) : slice := Slice 0 (length a).

End Np.

(** ** Method calls of the per-tick update, as a trace *)

Module Trace.

Inductive call : Set :=
| Call_update_data_sources_and_targets
| Call_reset_datatargets.

(** A computation that records the methods it invoked, also when one of
    them raised. *)
Definition traced (A : Type) : Type := (list call * result A)%type.

Definition invoke {A} (c : call) (r : result A) : traced A := ([c], r).

#[global] Instance traced_ret : MRet traced := fun A a => ([], Ok a).
#[global] Instance traced_bind : MBind traced := fun A B f m =>
  match m with
  | (l, Ok a) => let '(l', r) := f a in (l ++ l', r)
  | (l, Raise e) => (l, Raise e)
  end.

End Trace.
Export Trace.

(** ** [class WorldAdapter]: the dictionary-based adapter *)

(** The two methods [update] dispatches on: the abstract
    [update_data_sources_and_targets], and [reset_datatargets], which a
    subclass may override. *)
Class AdapterClass (S : Type) : Type := {
  update_data_sources_and_targets : S -> result S;
  reset_datatargets : S -> result S
}.

(** [WorldAdapter.update], inherited by every adapter. *)
Definition update {S} `{AdapterClass S} (self : S) : traced S :=
  self ← invoke Call_update_data_sources_and_targets
            (update_data_sources_and_targets self);
  invoke Call_reset_datatargets (reset_datatargets self).

Module WorldAdapter.

Record t : Type := Make {
  datasources : pydict pyval;
  datatargets : pydict pyval;
  datatarget_feedback : pydict pyval
}.

Definition init : t := Make [] [] [].

Definition get_available_datasources (self : t) : list string :=
  sorted (dict_keys (datasources self)).

Definition get_available_datatargets (self : t) : list string :=
  sorted (dict_keys (datatargets self)).

(** [self.datasources.get(key)] *)
Definition get_datasource_value (self : t) (key : string) : pyval :=
  match dict_get (datasources self) key with
  | Some v => v
  | None => PyNone
  end.

Definition get_datasource_values (self : t) : result (list float) :=
  mapM (fun x => v ← dict_item (datasources self) x; py_float v)
       (get_available_datasources self).

(** [self.datatarget_feedback.get(key, 0)] *)
Definition get_datatarget_feedback_value (self : t) (key : string) : pyval :=
  match dict_get (datatarget_feedback self) key with
  | Some v => v
  | None => PyInt 0
  end.

Definition reset_datatargets (self : t) : t :=
  Make (datasources self)
       (fold_left (fun d datatarget => dict_set d datatarget (PyInt 0))
                  (dict_keys (datatargets self)) (datatargets self))
       (datatarget_feedback self).

(** The class of a concrete dictionary-based adapter, given its
    implementation of the abstract method. *)
Definition class (hook : t -> result t) : AdapterClass t :=
  Build_AdapterClass t hook (fun self => Ok (reset_datatargets self)).


Definition add_to_datatarget (self : t) (key : string) (value : pyval)
  : result t :=
  match dict_get (datatargets self) key with
  | Some old =>
      new ← py_add old value;
      Ok (Make (datasources self) (dict_set (datatargets self) key new)
               (datatarget_feedback self))
  | None => Ok self
  end.

Definition set_datatarget_values (self : t) (values : list pyval) : result t :=
  d ← assign_each (datatargets self) (get_available_datatargets self) 0 values;
  Ok (Make (datasources self) d (datatarget_feedback self)).

Definition add_datatarget_values (self : t) (values : list pyval) : result t :=
  d ← add_each (datatargets self) (get_available_datatargets self) 0 values;
  Ok (Make (datasources self) d (datatarget_feedback self)).

Definition get_datatarget_feedback_values (self : t) : result (list float) :=
  mapM (fun x => v ← dict_item (datatarget_feedback self) x; py_float v)
       (get_available_datatargets self).

Definition set_datatarget_feedback_value (self : t) (key : string)
  (value : pyval) : t :=
  Make (datasources self) (datatargets self)
       (dict_set (datatarget_feedback self) key value).

End WorldAdapter.

(** ** [class Default(WorldAdapter)] *)

Module Default.
Import WorldAdapter.

(** [v != 0] *)
Definition ne0 (v : pyval) : bool :=
  match v with
  | PyNone => true
  | PyInt z => negb (z =? 0)
  | PyFloat f => negb (PrimFloat.eqb f 0%float)
  end.

(** [u] is the sample [random.uniform(0, 1)] drawn by the call. *)
Definition update_data_sources_and_targets (u : float) (self : t) : result t :=
  echo ← dict_item (datatargets self) "echo";
  let fb := if ne0 echo then dict_set (datatarget_feedback self) "echo" echo
            else datatarget_feedback self in
  let ds := dict_set (datasources self) "static_on" (PyInt 1) in
  let ds := dict_set ds "random" (PyFloat u) in
  Ok (Make ds (datatargets self) fb).

Definition init (u : float) : result t :=
  let self := WorldAdapter.init in
  let self := Make (dict_from_keys ["static_on"; "random"; "static_off"] (PyInt 0))
                   [("echo", PyInt 0)] [("echo", PyInt 0)] in
  update_data_sources_and_targets u self.

End Default.

(** ** [class ArrayWorldAdapter(WorldAdapter)] *)

Module ArrayWorldAdapter.
Import Np.

Record t : Type := Make {
  base : WorldAdapter.t;
  datasource_names : list string;
  datatarget_names : list string;
  _datasource_groups : gmap string slice;
  _datatarget_groups : gmap string slice;
  datasource_values : list float;
  datatarget_values : list float;
  datatarget_feedback_values : list float
}.

Definition init : t := Make WorldAdapter.init [] [] ∅ ∅ [] [] [].

(** The [initial_values] argument of the group constructors. *)
Inductive initial : Type :=
| NoInitial                      (* None, the default *)
| InitialArray (a : ndarray)     (* a numpy array *)
| InitialList (l : list float).  (* a Python list *)

(** [if initial_values:] *)
Definition truthy (iv : initial) : result bool :=
  match iv with
  | NoInitial => Ok false
  | InitialArray a => truth a
  | InitialList l => Ok (negb (bool_decide (l = [])))
  end.

(** [initial_values.size]: a list has no such attribute. *)
Definition attr_size (iv : initial) : result Z :=
  match iv with
  | InitialArray a => Ok (Z.of_nat (size a))
  | _ => Raise AttributeError
  end.

(** [np.asarray(initial_values).flatten()] *)
Definition asarray_flatten (iv : initial) : list float :=
  match iv with
  | NoInitial => []
  | InitialArray a => flatten a
  | InitialList l => l
  end.

(** [initial_value] defaults to [0.] *)
Definition add_datasource (self : t) (name : string) (initial_value : float)
  : nat * t :=
  let names := datasource_names self ++ [name] in
  let values := datasource_values self ++ [initial_value] in
  ((length names - 1)%nat,
   Make (base self) names (datatarget_names self)
        (_datasource_groups self) (_datatarget_groups self)
        values (datatarget_values self) (datatarget_feedback_values self)).

Definition add_datatarget (self : t) (name : string) (initial_value : float)
  : nat * t :=
  let names := datatarget_names self ++ [name] in
  let values := datatarget_values self ++ [initial_value] in
  let feedback := datatarget_feedback_values self ++ [initial_value] in
  ((length names - 1)%nat,
   Make (base self) (datasource_names self) names
        (_datasource_groups self) (_datatarget_groups self)
        (datasource_values self) values feedback).

(** [str(idxs[j][i])]: the decimal numeral of a coordinate. *)
Definition str (z : Z) : string := pretty z.

Definition _generate_names (basename : string) (size : Z) (shape : list Z)
  : result (list string) :=
  let dims := length shape in
  idxs ← unravel_index (arange (Z.to_nat size)) shape;
  Ok (map (fun i =>
             String.concat "_"
               (basename :: map (fun j => str (nth i (nth j idxs []) 0))
                                (seq 0 dims)))
          (seq 0 (Z.to_nat size))).

(** The first lines of both group constructors: the number of slots and
    their initial contents. *)
Definition group_size_and_values (shape : list Z) (initial_values : initial)
  : result (Z * list float) :=
  b ← truthy initial_values;
  if b : bool then
    size ← attr_size initial_values;
    Ok (size, asarray_flatten initial_values)
  else
    let size := product shape in
    initial_values ← zeros size;
    Ok (size, initial_values).

Definition add_datasource_group (self : t) (name : string) (shape : list Z)
  (initial_values : initial) : result (slice * t) :=
  '(size, initial_values) ← group_size_and_values shape initial_values;
  names ← _generate_names name size shape;
  let n := length (datasource_names self) in
  let slce := Slice n (n + Z.to_nat size) in
  Ok (slce,
      Make (base self) (datasource_names self ++ names) (datatarget_names self)
           (<[name := slce]> (_datasource_groups self)) (_datatarget_groups self)
           (datasource_values self ++ initial_values)
           (datatarget_values self) (datatarget_feedback_values self)).

Definition add_datatarget_group (self : t) (name : string) (shape : list Z)
  (initial_values : initial) : result (slice * t) :=
  '(size, initial_values) ← group_size_and_values shape initial_values;
  names ← _generate_names name size shape;
  let n := length (datatarget_names self) in
  let slce := Slice n (n + Z.to_nat size) in
  Ok (slce,
      Make (base self) (datasource_names self) (datatarget_names self ++ names)
           (_datasource_groups self) (<[name := slce]> (_datatarget_groups self))
           (datasource_values self)
           (datatarget_values self ++ initial_values)
           (datatarget_feedback_values self ++ repeat 0%float (Z.to_nat size))).

Definition get_available_datasources (self : t) : list string :=
  datasource_names self.

Definition get_available_datatargets (self : t) : list string :=
  datatarget_names self.

Definition get_datasource_index (self : t) (name : string) : result nat :=
  list_index (datasource_names self) name.

Definition get_datatarget_index (self : t) (name : string) : result nat :=
  list_index (datatarget_names self) name.

Definition get_datasource_value (self : t) (key : string) : result float :=
  index ← get_datasource_index self key;
  getitem (datasource_values self) (Z.of_nat index).

Definition get_datatarget_value (self : t) (key : string) : result float :=
  index ← get_datatarget_index self key;
  getitem (datatarget_values self) (Z.of_nat index).

Definition get_datatarget_feedback_value (self : t) (key : string)
  : result float :=
  index ← get_datatarget_index self key;
  getitem (datatarget_feedback_values self) (Z.of_nat index).

Definition get_datasource_values (self : t) : list float :=
  datasource_values self.

Definition get_datatarget_values (self : t) : list float :=
  datatarget_values self.

(** [self.<buffer>[self.<groups>[name]]], reshaped when [shape] is given. *)
Definition get_group (groups : gmap string slice) (values : list float)
  (name : string) (shape : option (list Z)) : result ndarray :=
  match groups !! name with
  | None => Raise KeyError
  | Some slce =>
      let data := getslice values slce in
      match shape with
      | None => Ok (NdArray [Z.of_nat (length data)] data)
      | Some shape => reshape data shape
      end
  end.

Definition get_datasource_group (self : t) (name : string)
  (shape : option (list Z)) : result ndarray :=
  get_group (_datasource_groups self) (datasource_values self) name shape.

Definition get_datatarget_group (self : t) (name : string)
  (shape : option (list Z)) : result ndarray :=
  get_group (_datatarget_groups self) (datatarget_values self) name shape.

(** The override: the zeroing is commented out, the body is [pass]. *)
Definition reset_datatargets (self : t) : t := self.

Definition class (hook : t -> result t) : AdapterClass t :=
  Build_AdapterClass t hook (fun self => Ok (reset_datatargets self)).


(** *** Writers *)

Definition with_datasource_values (self : t) (values : list float) : t :=
  Make (base self) (datasource_names self) (datatarget_names self)
       (_datasource_groups self) (_datatarget_groups self)
       values (datatarget_values self) (datatarget_feedback_values self).

Definition with_datatarget_values (self : t) (values : list float) : t :=
  Make (base self) (datasource_names self) (datatarget_names self)
       (_datasource_groups self) (_datatarget_groups self)
       (datasource_values self) values (datatarget_feedback_values self).

Definition with_datatarget_feedback_values (self : t) (values : list float) : t :=
  Make (base self) (datasource_names self) (datatarget_names self)
       (_datasource_groups self) (_datatarget_groups self)
       (datasource_values self) (datatarget_values self) values.

Definition get_datatarget_feedback_values (self : t) : list float :=
  datatarget_feedback_values self.

Definition get_datatarget_feedback_group (self : t) (name : string)
  (shape : option (list Z)) : result ndarray :=
  get_group (_datatarget_groups self) (datatarget_feedback_values self) name shape.

Definition set_datasource_value (self : t) (key : string) (value : float)
  : result t :=
  idx ← get_datasource_index self key;
  values ← setitem (datasource_values self) (Z.of_nat idx) value;
  Ok (with_datasource_values self values).

Definition set_datatarget_value (self : t) (key : string) (value : float)
  : result t :=
  idx ← get_datatarget_index self key;
  values ← setitem (datatarget_values self) (Z.of_nat idx) value;
  Ok (with_datatarget_values self values).

Definition add_to_datatarget (self : t) (key : string) (value : float)
  : result t :=
  idx ← get_datatarget_index self key;
  old ← getitem (datatarget_values self) (Z.of_nat idx);
  values ← setitem (datatarget_values self) (Z.of_nat idx) (old + value)%float;
  Ok (with_datatarget_values self values).

Definition set_datatarget_feedback_value (self : t) (key : string)
  (value : float) : result t :=
  idx ← get_datatarget_index self key;
  values ← setitem (datatarget_feedback_values self) (Z.of_nat idx) value;
  Ok (with_datatarget_feedback_values self values).

(** [<buffer>[<groups>[name]] = values.flatten()] *)
Definition set_group (groups : gmap string slice) (buffer : list float)
  (name : string) (values : ndarray) : result (list float) :=
  match groups !! name with
  | None => Raise KeyError
  | Some slce => assign_slice buffer slce (flatten values)
  end.

Definition set_datasource_group (self : t) (name : string) (values : ndarray)
  : result t :=
  buffer ← set_group (_datasource_groups self) (datasource_values self) name values;
  Ok (with_datasource_values self buffer).

Definition add_to_datatarget_group (self : t) (name : string) (values : ndarray)
  : result t :=
  buffer ← set_group (_datatarget_groups self) (datatarget_values self) name values;
  Ok (with_datatarget_values self buffer).

Definition set_datatarget_feedback_group (self : t) (name : string)
  (values : ndarray) : result t :=
  buffer ← set_group (_datatarget_groups self) (datatarget_feedback_values self)
             name values;
  Ok (with_datatarget_feedback_values self buffer).

(** The bulk writers start with an [assert]; [None] is its
    [AssertionError]. *)
Definition set_datasource_values (self : t) (values : list float) : option t :=
  if decide (length values = length (datasource_values self))
  then Some (with_datasource_values self values) else None.

Definition set_datatarget_values (self : t) (values : list float) : option t :=
  if decide (length values = length (datatarget_values self))
  then Some (with_datatarget_values self values) else None.

(** [self.datatarget_values += values], element by element. *)
Definition add_datatarget_values (self : t) (values : list float) : option t :=
  if decide (length values = length (datatarget_values self))
  then Some (with_datatarget_values self
               (zip_with PrimFloat.add (datatarget_values self) values))
  else None.

Definition set_datatarget_feedback_values (self : t) (values : list float)
  : option t :=
  if decide (length values = length (datatarget_feedback_values self))
  then Some (with_datatarget_feedback_values self values) else None.

End ArrayWorldAdapter.

(** ** [class TimeSeries(World)] *)

Module TimeSeries.
Import Np.

Open Scope float_scope.

(** A two-dimensional array of shape [(length rows, ncols)]. *)
Record matrix : Type := Matrix { ncols : nat; rows : list (list float) }.

Definition rectangular (m : matrix) : Prop :=
  Forall (fun row => length row = ncols m) (rows m).

(** The options fixed in [__init__]. *)
Definition z_transform : bool := true.
Definition clip_and_scale : bool := false.
Definition sigmoid : bool := true.

(** [np.log(np.finfo(np.float64).max) - 1], that is 708.78271289338397. *)
Definition cutoff : float := 0x1.62642fefa39efp+9.

(** [np.finfo(np.float64).max] *)
Definition float_max : float := 0x1.fffffffffffffp+1023.

(** [np.nan_to_num(x)] on one element. *)
Definition nan_to_num (x : float) : float :=
  if PrimFloat.is_nan x then 0
  else if PrimFloat.eqb x infinity then float_max
  else if PrimFloat.eqb x neg_infinity then - float_max
  else x.

(** [np.all(np.isnan(row))] *)
Definition all_isnan (row : list float) : bool := forallb PrimFloat.is_nan row.

Section Load.

(** The library functions whose rounding the source does not fix:
    [np.exp], [np.nanmean] and [np.nanvar]. *)
Variable np_exp : float -> float.
Variables np_nanmean np_nanvar : list float -> float.

(** [sigm(X)], element by element: the guard assignment, then the
    logistic function. *)
Definition sigm1 (x : float) : float :=
  let x := if PrimFloat.leb (nan_to_num x) (- cutoff) then - cutoff else x in
  1 / (1 + np_exp (- x)).

Definition sigm (X : list (list float)) : list (list float) :=
  map (map sigm1) X.

(** [std] of the loop body. *)
Definition row_std (row : list float) : float :=
  PrimFloat.sqrt (np_nanvar row).

(** The body of [if std > 0:], the value assigned to [data_z[i,:]]. *)
Definition row_z (row : list float) (std : float) : list float :=
  if clip_and_scale then
    let row_z := map (fun x => x - np_nanmean row) row in
    let pstd := std * 4 in
    let row_z :=
      map (fun x => if PrimFloat.ltb pstd (nan_to_num x) then pstd else x) row_z in
    let row_z :=
      map (fun x => if PrimFloat.ltb (nan_to_num x) (- pstd) then - pstd else x) row_z in
    map (fun x => ((x / pstd) + 1) * 0.5) row_z
  else
    map (fun x => (x - np_nanmean row) / std) row.

(** One iteration of the loop over the rows: row [i] of [data_z]
    afterwards.  [data_z] starts out as NaN everywhere. *)
Definition data_z_row (row : list float) : list float :=
  let unassigned := repeat nan (length row) in
  if negb (all_isnan row) then
    let std := row_std row in
    if PrimFloat.ltb 0 std then row_z row std else unassigned
  else unassigned.

Definition data_z (timeseries : matrix) : list (list float) :=
  map data_z_row (rows timeseries).

(** The normalisation block of [__init__]: the new [self.timeseries]. *)
Definition normalize (timeseries : matrix) : matrix :=
  if z_transform || clip_and_scale || sigmoid then
    Matrix (ncols timeseries)
           (if negb sigmoid then data_z timeseries else sigm (data_z timeseries))
  else timeseries.

End Load.

Close Scope float_scope.

(** The world object.  [permutation] is unset until the first shuffled
    read; [current_step] is the counter of the [World] base class. *)
Record world : Type := Make {
  timeseries : matrix;
  ids : list string;
  shuffle : bool;
  len_ts : Z;
  permutation : option (list Z);
  current_step : Z
}.

Definition set_permutation (self : world) (p : list Z) : world :=
  Make (timeseries self) (ids self) (shuffle self) (len_ts self) (Some p)
       (current_step self).

Definition set_current_step (self : world) (s : Z) : world :=
  Make (timeseries self) (ids self) (shuffle self) (len_ts self)
       (permutation self) s.

(** [TimeSeries.__init__] after the archive is read: [data] and [ids]
    are its fields, [step] is what [World.__init__] leaves in
    [current_step]. *)
Definition init (np_exp : float -> float)
  (np_nanmean np_nanvar : list float -> float)
  (data : matrix) (ids : list string) (step : Z) : world :=
  let ts := normalize np_exp np_nanmean np_nanvar data in
  Make ts ids true (Z.of_nat (ncols ts)) None step.

(** [self.timeseries[:, t]] *)
Definition column (m : matrix) (t : Z) : result (list float) :=
  let n := Z.of_nat (ncols m) in
  if (- n <=? t) && (t <? n) then mapM (fun row => getitem row t) (rows m)
  else Raise IndexError.

Section State.

(** The generator behind [np.random.permutation]: it returns the
    shuffled sequence and the generator's next state. *)
Variable Rng : Type.
Variable random_permutation : Rng -> list Z -> list Z * Rng.

(** The time index computed by the [state] property, with the world and
    the generator afterwards. *)
Definition state_index (self : world) (g : Rng) : result (Z * world * Rng) :=
  t ← py_mod (current_step self - 1) (len_ts self);
  if shuffle self then
    let '(self, g) :=
      if t =? 0 then
        let idxs := arange (Z.to_nat (len_ts self)) in
        let '(p, g') := random_permutation g idxs in
        (set_permutation self p, g')
      else (self, g) in
    p ← match permutation self with
        | Some p => Ok p
        | None => Raise AttributeError
        end;
    t ← getitem p t;
    Ok (t, self, g)
  else Ok (t, self, g).

(** The [state] property. *)
Definition state (self : world) (g : Rng) : result (list float * world * Rng) :=
  '(t, self, g) ← state_index self g;
  col ← column (timeseries self) t;
  Ok (col, self, g).

(** The world sets [current_step] to each of [steps] in turn and the
    adapter reads [state] once per step; the time indices visited. *)
Fixpoint visited (self : world) (g : Rng) (steps : list Z)
  : result (list Z * world * Rng) :=
  match steps with
  | [] => Ok ([], self, g)
  | s :: steps =>
      '(t, self, g) ← state_index (set_current_step self s) g;
      '(ts, self, g) ← visited self g steps;
      Ok (t :: ts, self, g)
  end.

End State.

(** Reference versions of the two reductions, adding in index order
    (what NumPy does for fewer than eight elements). *)
Open Scope float_scope.

Definition nansum (l : list float) : float :=
  fold_left (fun acc x => acc + (if PrimFloat.is_nan x then 0 else x)) l 0.

Definition nancount (l : list float) : float :=
  fold_left (fun acc x => if PrimFloat.is_nan x then acc else acc + 1) l 0.

Definition nanmean_seq (l : list float) : float := nansum l / nancount l.

Definition nanvar_seq (l : list float) : float :=
  let avg := nanmean_seq l in
  let sqr := map (fun x => if PrimFloat.is_nan x then 0
                           else (x - avg) * (x - avg)) l in
  fold_left PrimFloat.add sqr 0 / nancount l.

Close Scope float_scope.

End TimeSeries.

(** ** [class DefaultArray(ArrayWorldAdapter)] *)

Module DefaultArray.
Import Np ArrayWorldAdapter.

Section Random.

(** [np.random.randn(n)]: [n] samples and the generator's next state. *)
Variable Rng : Type.
Variable randn : Rng -> nat -> list float * Rng.

Definition init (g : Rng) : result (t * Rng) :=
  let self := ArrayWorldAdapter.init in
  let self := (add_datasource self "test" 0%float).2 in
  '(_, self) ← add_datasource_group self "vision" [3; 7] NoInitial;
  let self := (add_datatarget self "test" 0%float).2 in
  '(_, self) ← add_datatarget_group self "action" [2; 3] NoInitial;
  (* len(self.datasource_values.shape): the buffer has one dimension *)
  let '(sample, g) := randn g 1 in
  let self := with_datasource_values self sample in
  let self := with_datatarget_values self
                (repeat 0%float (length (datatarget_values self))) in
  Ok (self, g).

Definition update_data_sources_and_targets (self : t) (g : Rng)
  : result (t * Rng) :=
  feedback ← assign_slice (datatarget_feedback_values self)
               (whole (datatarget_feedback_values self)) (datatarget_values self);
  let self := with_datatarget_feedback_values self feedback in
  let '(sample, g) := randn g 64 in
  values ← assign_slice (datasource_values self)
             (whole (datasource_values self)) sample;
  Ok (with_datasource_values self values, g).

End Random.

End DefaultArray.

(** ** [class TimeSeriesRunner(WorldAdapter)] *)

Module TimeSeriesRunner.

(** The adapter holds its world; [ids] of the world are the identifiers
    as [str] prints them. *)
Record t : Type := Make {
  base : WorldAdapter.t;
  world : TimeSeries.world
}.

(** The class attributes, shared by all instances. *)
Record class_attributes : Type := ClassAttributes {
  supported_datasources : list string;
  supported_datatargets : list string
}.

Definition init (cls : class_attributes) (world : TimeSeries.world)
  : t * class_attributes :=
  (Make WorldAdapter.init world,
   ClassAttributes (supported_datasources cls ++ TimeSeries.ids world)
                   (supported_datatargets cls)).

(** [for idx, ID in enumerate(ids): datasources[str(ID)] = state[idx]],
    from position [idx] on. *)
Fixpoint publish (d : pydict pyval) (ids : list string) (idx : nat)
  (state : list float) : result (pydict pyval) :=
  match ids with
  | [] => Ok d
  | ID :: ids =>
      v ← getitem state (Z.of_nat idx);
      publish (dict_set d ID (PyFloat v)) ids (S idx) state
  end.

Section Random.

Variable Rng : Type.
Variable random_permutation : Rng -> list Z -> list Z * Rng.

Definition update_data_sources_and_targets (self : t) (g : Rng)
  : result (t * Rng) :=
  '(state, world, g) ← TimeSeries.state Rng random_permutation (world self) g;
  d ← publish (WorldAdapter.datasources (base self)) (TimeSeries.ids world) 0 state;
  Ok (Make (WorldAdapter.Make d (WorldAdapter.datatargets (base self))
                              (WorldAdapter.datatarget_feedback (base self)))
           world, g).

End Random.

End TimeSeriesRunner.

(** ** Registration sequences

    The initialisation phase of an array adapter: a sequence of calls of
    [add_datasource] and [add_datasource_group] (without initial values),
    and the names such a sequence is expected to register. *)

Module Registration.
Import Np ArrayWorldAdapter.

Inductive registration : Type :=
| Scalar (name : string) (initial_value : float)
| Group (name : string) (shape : list Z).

Definition register (self : t) (r : registration) : result t :=
  match r with
  | Scalar name initial_value => Ok (add_datasource self name initial_value).2
  | Group name shape =>
      '(_, self) ← add_datasource_group self name shape NoInitial;
      Ok self
  end.

Fixpoint register_all (self : t) (rs : list registration) : result t :=
  match rs with
  | [] => Ok self
  | r :: rs => self ← register self r; register_all self rs
  end.

(** The member names of a group: ["{group}_{i0}_{i1}_..."] for each flat
    offset, by the row-major coordinates of the offset in [shape]. *)
Definition member_names (group : string) (shape : list Z) : list string :=
  map (fun i => String.concat "_" (group :: map str (unravel shape i)))
      (arange (Z.to_nat (product shape))).

Definition registered_names (r : registration) : list string :=
  match r with
  | Scalar name _ => [name]
  | Group name shape => member_names name shape
  end.

Definition registered_slots (r : registration) : list float :=
  match r with
  | Scalar _ initial_value => [initial_value]
  | Group _ shape => repeat 0%float (Z.to_nat (product shape))
  end.

Definition positive_dims (shape : list Z) : Prop := Forall (fun d => 0 < d) shape.

(** A shape as the data model has it: at least one dimension, and every
    dimension positive. *)
Definition valid_shape (shape : list Z) : Prop :=
  shape <> [] /\ positive_dims shape.

Definition valid (r : registration) : Prop :=
  match r with
  | Scalar _ _ => True
  | Group _ shape => valid_shape shape
  end.

End Registration.

(** ** Reference notions and example objects *)

(** [matrix[:, j]], the column the playback is expected to return. *)
Definition column_at (m : TimeSeries.matrix) (j : nat) : list float :=
  map (fun row => nth j row 0%float) (TimeSeries.rows m).

(** Ascending order of names. *)
Definition ascending : list string -> Prop :=
  Sorted (fun a b => String.leb a b = true).

(** The array adapter after [add_datasource(name)] and
    [add_datatarget(name)]. *)
Definition registered_once (name : string) : ArrayWorldAdapter.t :=
  (ArrayWorldAdapter.add_datatarget
     (ArrayWorldAdapter.add_datasource ArrayWorldAdapter.init name 0%float).2
     name 0%float).2.

(** The dictionary-based adapter with the channels of [Default]. *)
Definition default_channels : WorldAdapter.t :=
  WorldAdapter.Make
    [("static_on", PyInt 1); ("random", PyFloat 0.5%float); ("static_off", PyInt 0)]
    [("echo", PyInt 0)] [("echo", PyInt 0)].

(** The datasource registrations of [DefaultArray.__init__]. *)
Definition default_array_sources : list Registration.registration :=
  [Registration.Scalar "test" 0%float; Registration.Group "vision" [3; 7]].

(** The dataset of the concrete scenario, with a constant third row. *)
Definition constant_row_data : TimeSeries.matrix :=
  TimeSeries.Matrix 3 [[1; 2; 3]; [4; 5; 6]; [5; 5; 5]]%float.

(** A world that plays back a dataset of two rows and three columns. *)
Definition playback_world (shuffle : bool) (step : Z) : TimeSeries.world :=
  TimeSeries.Make (TimeSeries.Matrix 3 [[1; 2; 3]; [4; 5; 6]]%float)
                  ["a"; "b"] shuffle 3 None step.

(** A generator that reverses the sequence and counts its draws. *)
Definition reversing (g : nat) (l : list Z) : list Z * nat := (rev l, S g).

(** * Properties *)

(** ** Dictionaries *)

Section DictLemmas.
Context {V : Type}.
Implicit Types (d : pydict V) (k : string) (v : V).

Lemma dict_get_set d k v k' :
  dict_get (dict_set d k v) k' =
  if String.eqb k k' then Some v else dict_get d k'.
Proof.
  induction d as [|[k0 v0] d IH]; simpl.
  - reflexivity.
  - destruct (String.eqb_spec k0 k) as [->|Hne]; simpl.
    + destruct (String.eqb_spec k k'); reflexivity.
    + rewrite IH.
      destruct (String.eqb_spec k0 k') as [->|]; [|reflexivity].
      destruct (String.eqb_spec k k'); congruence.
Qed.

Lemma dict_get_keys d k : is_Some (dict_get d k) <-> k ∈ dict_keys d.
Proof.
  induction d as [|[k0 v0] d IH]; simpl.
  - split; [intros [? [=]] | intros ?%elem_of_nil; done].
  - rewrite elem_of_cons. destruct (String.eqb_spec k0 k) as [->|Hne].
    + split; eauto.
    + rewrite IH. split; [tauto | intros [->|]; done].
Qed.

Lemma dict_keys_set d k v :
  k ∈ dict_keys d -> dict_keys (dict_set d k v) = dict_keys d.
Proof.
  induction d as [|[k0 v0] d IH]; simpl.
  - intros ?%elem_of_nil; done.
  - intros [->|Hin]%elem_of_cons.
    + rewrite String.eqb_refl. reflexivity.
    + destruct (String.eqb k0 k); simpl; [reflexivity|].
      f_equal. exact (IH Hin).
Qed.

(** Writing [v] under each key of [ks], all of them present: the keys
    and their order stay, and exactly the keys of [ks] now hold [v]. *)
Lemma dict_set_all d ks v :
  (forall k, k ∈ ks -> k ∈ dict_keys d) ->
  let d' := fold_left (fun d k => dict_set d k v) ks d in
  dict_keys d' = dict_keys d /\
  forall k, dict_get d' k = if bool_decide (k ∈ ks) then Some v else dict_get d k.
Proof.
  revert d. induction ks as [|k0 ks IH]; intros d Hks; cbv zeta; cbn [fold_left].
  - split; [reflexivity|]. intros k. rewrite bool_decide_eq_false_2; [done|].
    apply not_elem_of_nil.
  - assert (Hk0 : k0 ∈ dict_keys d) by apply Hks, list_elem_of_here.
    destruct (IH (dict_set d k0 v)) as [Hkeys Hget].
    { intros k Hk. rewrite dict_keys_set by exact Hk0.
      apply Hks, list_elem_of_further, Hk. }
    split.
    + rewrite Hkeys. apply dict_keys_set, Hk0.
    + intros k. rewrite Hget, dict_get_set.
      destruct (String.eqb_spec k0 k) as [->|Hne].
      * rewrite (bool_decide_eq_true_2 (k ∈ k :: ks)) by apply list_elem_of_here.
        destruct (bool_decide (k ∈ ks)); reflexivity.
      * destruct (decide (k ∈ ks)) as [Hin|Hnin].
        -- rewrite !bool_decide_eq_true_2; [reflexivity| |exact Hin].
           apply list_elem_of_further, Hin.
        -- rewrite !bool_decide_eq_false_2; [reflexivity| |exact Hnin].
           intros [?|?]%elem_of_cons; congruence.
Qed.

End DictLemmas.

(** ** The per-tick update *)

(** C8. [update] invokes [update_data_sources_and_targets] and then
    [reset_datatargets], once each and in this order, the reset on the
    adapter as the first call left it: when the first call returns, the
    recorded calls are exactly these two and the outcome is the reset's. *)
Theorem update_calls_update_then_reset {S} (C : AdapterClass S) (self self1 : S) :
  update_data_sources_and_targets self = Ok self1 ->
  update self =
  ([Call_update_data_sources_and_targets; Call_reset_datatargets],
   reset_datatargets self1).
Proof.
  intros Hhook. unfold update, invoke, mbind, traced_bind.
  rewrite Hhook. reflexivity.
Qed.

(** When the first call raises, the exception leaves [update] and the
    reset is not reached. *)
Lemma update_raises {S} (C : AdapterClass S) (self : S) (e : exn) :
  update_data_sources_and_targets self = Raise e ->
  update self = ([Call_update_data_sources_and_targets], Raise e).
Proof.
  intros Hhook. unfold update, invoke, mbind, traced_bind.
  rewrite Hhook. reflexivity.
Qed.

Lemma update_calls_update_then_reset_witness :
  let hook := Default.update_data_sources_and_targets 0.5%float in
  let self := WorldAdapter.Make [] [("echo", PyInt 3)] [("echo", PyInt 0)] in
  update (H := WorldAdapter.class hook) self =
  ([Call_update_data_sources_and_targets; Call_reset_datatargets],
   Ok (WorldAdapter.Make [("static_on", PyInt 1); ("random", PyFloat 0.5%float)]
                         [("echo", PyInt 0)] [("echo", PyInt 3)])).
Proof.
  intros hook self.
  exact (update_calls_update_then_reset (WorldAdapter.class hook) self _ eq_refl).
Defined.

(** ** The dictionary-based adapter *)

(** C7. After [reset_datatargets] the datatarget names are the same, in
    the same order, every one of them holds the integer 0, and the other
    two dictionaries are untouched. *)
Theorem reset_datatargets_zeroes (self : WorldAdapter.t) :
  let self' := WorldAdapter.reset_datatargets self in
  dict_keys (WorldAdapter.datatargets self') =
    dict_keys (WorldAdapter.datatargets self) /\
  (forall name,
     dict_get (WorldAdapter.datatargets self') name =
     match dict_get (WorldAdapter.datatargets self) name with
     | Some _ => Some (PyInt 0)
     | None => None
     end) /\
  WorldAdapter.datasources self' = WorldAdapter.datasources self /\
  WorldAdapter.datatarget_feedback self' = WorldAdapter.datatarget_feedback self.
Proof.
  simpl.
  destruct (dict_set_all (WorldAdapter.datatargets self)
              (dict_keys (WorldAdapter.datatargets self)) (PyInt 0))
    as [Hkeys Hget]; [auto|].
  split; [exact Hkeys|]. split; [|split; reflexivity].
  intros name. rewrite Hget.
  destruct (decide (name ∈ dict_keys (WorldAdapter.datatargets self))) as [Hin|Hnin].
  - rewrite bool_decide_eq_true_2 by done.
    apply dict_get_keys in Hin as [v ->]. reflexivity.
  - rewrite bool_decide_eq_false_2 by done.
    destruct (dict_get (WorldAdapter.datatargets self) name) eqn:E; [|reflexivity].
    exfalso. apply Hnin, dict_get_keys. rewrite E. eauto.
Qed.

(** ** NumPy helpers *)

Section NpLemmas.
Import Np Registration ArrayWorldAdapter.

Lemma fold_left_mul (l : list Z) (a : Z) :
  fold_left Z.mul l a = a * fold_right Z.mul 1 l.
Proof.
  revert a. induction l as [|x l IH]; intros a; simpl; [lia|].
  rewrite IH. lia.
Qed.

Lemma product_cons (d : Z) (shape : list Z) :
  product (d :: shape) = d * product shape.
Proof. unfold product. simpl. rewrite !fold_left_mul. lia. Qed.

Lemma product_pos (shape : list Z) : positive_dims shape -> 0 < product shape.
Proof.
  induction 1 as [|d shape Hd _ IH]; [reflexivity|].
  rewrite product_cons. lia.
Qed.

Lemma zeros_nonneg (n : Z) :
  0 <= n -> zeros n = Ok (repeat 0%float (Z.to_nat n)).
Proof. intros Hn. unfold zeros. destruct (Z.ltb_spec n 0); [lia|reflexivity]. Qed.

Lemma valid_shape_no_negative (shape : list Z) :
  positive_dims shape -> existsb (fun d => d <? 0) shape = false.
Proof.
  induction 1 as [|d shape Hd _ IH]; simpl; [reflexivity|].
  rewrite IH. destruct (Z.ltb_spec d 0); [lia|reflexivity].
Qed.

Lemma valid_shape_filter_known (shape : list Z) :
  positive_dims shape ->
  List.filter (fun x => negb (x =? -1)) shape = shape /\
  List.filter (fun x => x =? -1) shape = [].
Proof.
  induction 1 as [|d shape Hd _ [IH1 IH2]]; simpl; [split; reflexivity|].
  destruct (Z.eqb_spec d (-1)); [lia|]. simpl. rewrite IH1, IH2. split; reflexivity.
Qed.

(** Reshaping to a valid shape of the right size keeps the elements. *)
Lemma reshape_valid (d : list float) (shape : list Z) :
  valid_shape shape -> product shape = Z.of_nat (length d) ->
  reshape d shape = Ok (NdArray shape d).
Proof.
  intros [_ Hv] Hsize. unfold reshape.
  destruct (valid_shape_filter_known shape Hv) as [-> ->].
  rewrite (valid_shape_no_negative shape Hv), Hsize, Z.eqb_refl. reflexivity.
Qed.

Lemma unravel_length (shape : list Z) (i : Z) :
  length (unravel shape i) = length shape.
Proof. revert i. induction shape; intros i; simpl; [|rewrite IHshape]; reflexivity. Qed.

Lemma map_nth_seq {A B} (f : A -> B) (l : list A) (d : A) :
  map (fun j => f (nth j l d)) (seq 0 (length l)) = map f l.
Proof.
  induction l as [|x l IH]; simpl; [reflexivity|].
  f_equal. rewrite <- seq_shift, map_map. exact IH.
Qed.

Lemma arange_in_range (n : nat) (p : Z) :
  Z.of_nat n <= p ->
  forallb (fun i => (0 <=? i) && (i <? p)) (arange n) = true.
Proof.
  intros Hn. apply forallb_forall. intros i Hi.
  apply in_map_iff in Hi as (j & <- & Hj%in_seq).
  apply andb_true_iff. split; [apply Z.leb_le | apply Z.ltb_lt]; lia.
Qed.

Lemma nth_arange (f : Z -> Z) (n i : nat) :
  (i < n)%nat -> nth i (map f (arange n)) 0 = f (Z.of_nat i).
Proof.
  intros Hi. unfold arange. rewrite map_map.
  rewrite (nth_indep _ 0 (f (Z.of_nat 0))) by (rewrite length_map, length_seq; exact Hi).
  rewrite (map_nth (fun x => f (Z.of_nat x))), seq_nth by exact Hi. reflexivity.
Qed.

(** The names generated for a whole group are its member names. *)
Lemma generate_names_valid (basename : string) (shape : list Z) :
  valid_shape shape ->
  _generate_names basename (product shape) shape = Ok (member_names basename shape).
Proof.
  intros [_ Hv]. unfold _generate_names, unravel_index.
  rewrite (valid_shape_no_negative shape Hv).
  rewrite arange_in_range by (pose proof (product_pos shape Hv); lia).
  cbv [mbind result_bind]. f_equal. unfold member_names.
  unfold arange at 2. rewrite map_map.
  apply map_ext_in. intros i Hi%in_seq. f_equal. f_equal.
  rewrite <- (map_nth_seq str (unravel shape (Z.of_nat i)) 0), unravel_length.
  apply map_ext_in. intros j Hj%in_seq. f_equal.
  rewrite (nth_indep _ [] (map (fun i => nth 0 (unravel shape i) 0)
                               (arange (Z.to_nat (product shape)))))
    by (rewrite length_map, length_seq; lia).
  rewrite (map_nth (fun j => map (fun i => nth j (unravel shape i) 0) _)).
  rewrite seq_nth by lia.
  apply (nth_arange (fun i => nth (0 + j) (unravel shape i) 0)). lia.
Qed.

Lemma member_names_length (basename : string) (shape : list Z) :
  length (member_names basename shape) = Z.to_nat (product shape).
Proof. unfold member_names, arange. rewrite !length_map, length_seq. reflexivity. Qed.

Lemma getslice_app {A} (l1 l2 : list A) :
  getslice (l1 ++ l2) (Slice (length l1) (length l1 + length l2)) = l2.
Proof.
  unfold getslice. simpl.
  rewrite drop_app_length.
  replace (length l1 + length l2 - length l1)%nat with (length l2) by lia.
  apply firstn_all.
Qed.

Lemma list_index_absent (l : list string) (x : string) :
  x ∉ l -> list_index l x = Raise ValueError.
Proof.
  induction l as [|y l IH]; simpl; [reflexivity|].
  intros Hnin. destruct (String.eqb_spec y x) as [->|Hne].
  - exfalso. apply Hnin, list_elem_of_here.
  - rewrite IH; [reflexivity|]. intros Hin. apply Hnin, list_elem_of_further, Hin.
Qed.

End NpLemmas.

(** ** The array-based adapter *)

Section ArrayAdapter.
Import Np Registration ArrayWorldAdapter.

(** A group added without initial values, with a valid shape: the member
    names and as many zero slots are appended, and the group's range is
    (re)bound to the appended slots. *)
Lemma add_datasource_group_valid (self : t) (name : string) (shape : list Z) :
  valid_shape shape ->
  let n := length (datasource_names self) in
  let slce := Slice n (n + Z.to_nat (product shape)) in
  add_datasource_group self name shape NoInitial =
  Ok (slce,
      Make (base self) (datasource_names self ++ member_names name shape)
           (datatarget_names self)
           (<[name := slce]> (_datasource_groups self)) (_datatarget_groups self)
           (datasource_values self ++ repeat 0%float (Z.to_nat (product shape)))
           (datatarget_values self) (datatarget_feedback_values self)).
Proof.
  intros Hv n slce. pose proof (product_pos shape (proj2 Hv)) as Hpos.
  unfold add_datasource_group, group_size_and_values, truthy.
  cbv [mbind result_bind]. rewrite zeros_nonneg by lia.
  rewrite generate_names_valid by exact Hv. reflexivity.
Qed.

Lemma add_datatarget_group_valid (self : t) (name : string) (shape : list Z) :
  valid_shape shape ->
  let n := length (datatarget_names self) in
  let slce := Slice n (n + Z.to_nat (product shape)) in
  add_datatarget_group self name shape NoInitial =
  Ok (slce,
      Make (base self) (datasource_names self)
           (datatarget_names self ++ member_names name shape)
           (_datasource_groups self) (<[name := slce]> (_datatarget_groups self))
           (datasource_values self)
           (datatarget_values self ++ repeat 0%float (Z.to_nat (product shape)))
           (datatarget_feedback_values self
              ++ repeat 0%float (Z.to_nat (product shape)))).
Proof.
  intros Hv n slce. pose proof (product_pos shape (proj2 Hv)) as Hpos.
  unfold add_datatarget_group, group_size_and_values, truthy.
  cbv [mbind result_bind]. rewrite zeros_nonneg by lia.
  rewrite generate_names_valid by exact Hv. reflexivity.
Qed.

(** Reading back a group that was just added at the end of an aligned
    buffer returns the slots that were appended. *)
Lemma get_group_appended (groups : gmap string slice) (values slots : list float)
  (name : string) (shape : list Z) :
  valid_shape shape -> product shape = Z.of_nat (length slots) ->
  get_group (<[name := Slice (length values) (length values + length slots)]> groups)
            (values ++ slots) name (Some shape) =
  Ok (NdArray shape slots).
Proof.
  intros Hv Hsize. unfold get_group.
  rewrite lookup_insert_eq, getslice_app. apply reshape_valid; assumption.
Qed.

(** The half of C1 that the code does provide: without initial values,
    a group reads back as zeros of the requested shape. *)
Lemma add_get_group_without_initial_values (self : t) (name : string)
  (shape : list Z) :
  valid_shape shape ->
  length (datasource_names self) = length (datasource_values self) ->
  length (datatarget_names self) = length (datatarget_values self) ->
  let expected := Ok (NdArray shape (repeat 0%float (Z.to_nat (product shape)))) in
  ('(_, self') ← add_datasource_group self name shape NoInitial;
   get_datasource_group self' name (Some shape)) = expected /\
  ('(_, self') ← add_datatarget_group self name shape NoInitial;
   get_datatarget_group self' name (Some shape)) = expected.
Proof.
  intros Hv Hsrc Htgt expected. pose proof (product_pos shape (proj2 Hv)) as Hpos.
  rewrite add_datasource_group_valid, add_datatarget_group_valid by exact Hv.
  cbv [mbind result_bind]. unfold get_datasource_group, get_datatarget_group.
  cbn [_datasource_groups _datatarget_groups datasource_values datatarget_values].
  rewrite Hsrc, Htgt.
  rewrite <- (repeat_length 0%float (Z.to_nat (product shape))) at 1 3.
  split; (apply get_group_appended; [exact Hv | rewrite repeat_length; lia]).
Qed.

(** An array of two or more initial values never gets past the test
    [if initial_values:]. *)
Lemma add_group_array_raises (self : t) (name : string) (shape : list Z)
  (a : ndarray) :
  (2 <= size a)%nat ->
  add_datasource_group self name shape (InitialArray a) = Raise ValueError /\
  add_datatarget_group self name shape (InitialArray a) = Raise ValueError.
Proof.
  intros Hsize.
  unfold add_datasource_group, add_datatarget_group, group_size_and_values,
    truthy, truth.
  unfold size in Hsize. destruct (data a) as [|x [|y l]]; simpl in Hsize; [lia..|].
  split; reflexivity.
Qed.

(** C1. The group constructors do not accept a full-size array of initial
    values: with the six initial values 1..6 for a group of shape (2, 3)
    both raise [ValueError], as an array or flattened, before anything is
    registered, so there is no group to read back; the same values in a
    Python list raise [AttributeError]. *)
Theorem add_group_with_initial_values_raises :
  let values := [1; 2; 3; 4; 5; 6]%float in
  add_datasource_group init "vision" [2; 3] (InitialArray (NdArray [2; 3] values))
    = Raise ValueError /\
  add_datasource_group init "vision" [2; 3] (InitialArray (NdArray [6] values))
    = Raise ValueError /\
  add_datatarget_group init "action" [2; 3] (InitialArray (NdArray [2; 3] values))
    = Raise ValueError /\
  add_datatarget_group init "action" [2; 3] (InitialArray (NdArray [6] values))
    = Raise ValueError /\
  add_datasource_group init "vision" [2; 3] (InitialList values)
    = Raise AttributeError /\
  add_datatarget_group init "action" [2; 3] (InitialList values)
    = Raise AttributeError.
Proof. repeat split; reflexivity. Qed.

(** C10. The override of [reset_datatargets] returns the adapter as it
    is, and so the adapter that [update] leaves is the one that
    [update_data_sources_and_targets] returned, target buffer included. *)
Theorem array_reset_datatargets_is_noop (hook : t -> result t) (self : t) :
  reset_datatargets self = self /\
  update (H := class hook) self =
  (match hook self with
   | Ok _ => [Call_update_data_sources_and_targets; Call_reset_datatargets]
   | Raise _ => [Call_update_data_sources_and_targets]
   end, hook self).
Proof.
  split; [reflexivity|].
  unfold update, invoke, mbind, traced_bind. simpl.
  destruct (hook self); reflexivity.
Qed.

(** C2, as the code has it.  No registration checks the name: whether or
    not [name] is registered already, the scalar constructors append it
    with one more slot and return the new last index, and the group
    constructors (no initial values, a valid shape) append the member
    names with as many zero slots and bind the group to the new range. *)
Theorem registering_again_appends (self : t) (name : string)
  (initial_value : float) (shape : list Z) :
  valid_shape shape ->
  let size := Z.to_nat (product shape) in
  let zero_slots := repeat 0%float size in
  let src := Slice (length (datasource_names self))
                   (length (datasource_names self) + size) in
  let tgt := Slice (length (datatarget_names self))
                   (length (datatarget_names self) + size) in
  add_datasource self name initial_value =
    (length (datasource_names self),
     Make (base self) (datasource_names self ++ [name]) (datatarget_names self)
          (_datasource_groups self) (_datatarget_groups self)
          (datasource_values self ++ [initial_value])
          (datatarget_values self) (datatarget_feedback_values self)) /\
  add_datatarget self name initial_value =
    (length (datatarget_names self),
     Make (base self) (datasource_names self) (datatarget_names self ++ [name])
          (_datasource_groups self) (_datatarget_groups self)
          (datasource_values self)
          (datatarget_values self ++ [initial_value])
          (datatarget_feedback_values self ++ [initial_value])) /\
  add_datasource_group self name shape NoInitial =
    Ok (src,
        Make (base self) (datasource_names self ++ member_names name shape)
             (datatarget_names self)
             (<[name := src]> (_datasource_groups self)) (_datatarget_groups self)
             (datasource_values self ++ zero_slots)
             (datatarget_values self) (datatarget_feedback_values self)) /\
  add_datatarget_group self name shape NoInitial =
    Ok (tgt,
        Make (base self) (datasource_names self)
             (datatarget_names self ++ member_names name shape)
             (_datasource_groups self) (<[name := tgt]> (_datatarget_groups self))
             (datasource_values self)
             (datatarget_values self ++ zero_slots)
             (datatarget_feedback_values self ++ zero_slots)).
Proof.
  intros Hv size zero_slots src tgt.
  assert (Hlast : forall l : list string,
             (length (l ++ [name]) - 1)%nat = length l).
  { intros l. rewrite length_app. simpl. lia. }
  repeat split.
  - unfold add_datasource. rewrite Hlast. reflexivity.
  - unfold add_datatarget. rewrite Hlast. reflexivity.
  - exact (add_datasource_group_valid self name shape Hv).
  - exact (add_datatarget_group_valid self name shape Hv).
Qed.

Lemma registering_again_appends_witness :
  let self := registered_once "test" in
  valid_shape [2; 3] /\
  (add_datasource self "test" 0%float).1 = 1%nat /\
  datasource_names (add_datasource self "test" 0%float).2 = ["test"; "test"] /\
  datasource_values (add_datasource self "test" 0%float).2 = [0; 0]%float.
Proof.
  intros self.
  assert (Hv : valid_shape [2; 3]) by (split; [discriminate|repeat constructor; lia]).
  split; [exact Hv|].
  destruct (registering_again_appends self "test" 0%float [2; 3] Hv) as [-> _].
  repeat split; reflexivity.
Defined.

(** The claim of C2 fails on the second [add_datasource("test")] and the
    second [add_datatarget("test")]: each returns index 1, the name is
    listed twice and the buffers have two slots. *)
Lemma registering_again_counterexample :
  let self := registered_once "test" in
  datasource_names self = ["test"] /\
  datatarget_names self = ["test"] /\
  add_datasource self "test" 0%float =
    (1%nat, Make WorldAdapter.init ["test"; "test"] ["test"] ∅ ∅
                 [0; 0]%float [0%float] [0%float]) /\
  add_datatarget self "test" 0%float =
    (1%nat, Make WorldAdapter.init ["test"] ["test"; "test"] ∅ ∅
                 [0%float] [0; 0]%float [0; 0]%float).
Proof. repeat split; reflexivity. Qed.

(** C4, as the code has it.  For a name that is not registered, the
    getters of the array adapter raise the [ValueError] of [list.index],
    while those of the dictionary-based adapter return a default:
    [None] for a datasource and [0] for a datatarget feedback. *)
Theorem getters_of_unknown_name (self : t) (dict_self : WorldAdapter.t)
  (name : string) :
  name ∉ datasource_names self ->
  name ∉ datatarget_names self ->
  name ∉ dict_keys (WorldAdapter.datasources dict_self) ->
  name ∉ dict_keys (WorldAdapter.datatarget_feedback dict_self) ->
  get_datasource_value self name = Raise ValueError /\
  get_datatarget_value self name = Raise ValueError /\
  get_datatarget_feedback_value self name = Raise ValueError /\
  WorldAdapter.get_datasource_value dict_self name = PyNone /\
  WorldAdapter.get_datatarget_feedback_value dict_self name = PyInt 0.
Proof.
  intros Hsrc Htgt Hds Hfb.
  unfold get_datasource_value, get_datatarget_value,
    get_datatarget_feedback_value, get_datasource_index, get_datatarget_index.
  rewrite !list_index_absent by assumption.
  unfold WorldAdapter.get_datasource_value,
    WorldAdapter.get_datatarget_feedback_value.
  destruct (dict_get (WorldAdapter.datasources dict_self) name) eqn:E1.
  { exfalso. apply Hds, dict_get_keys. rewrite E1. eauto. }
  destruct (dict_get (WorldAdapter.datatarget_feedback dict_self) name) eqn:E2.
  { exfalso. apply Hfb, dict_get_keys. rewrite E2. eauto. }
  repeat split; reflexivity.
Qed.

Lemma getters_of_unknown_name_witness :
  get_datasource_value (registered_once "test") "nope" = Raise ValueError /\
  get_datatarget_value (registered_once "test") "nope" = Raise ValueError /\
  get_datatarget_feedback_value (registered_once "test") "nope" = Raise ValueError /\
  WorldAdapter.get_datasource_value default_channels "nope" = PyNone /\
  WorldAdapter.get_datatarget_feedback_value default_channels "nope" = PyInt 0.
Proof.
  apply getters_of_unknown_name.
  - intros ?%list_elem_of_In. vm_compute in *. intuition discriminate.
  - intros ?%list_elem_of_In. vm_compute in *. intuition discriminate.
  - intros ?%list_elem_of_In. vm_compute in *. intuition discriminate.
  - intros ?%list_elem_of_In. vm_compute in *. intuition discriminate.
Defined.

(** The claim of C4 fails on the dictionary-based adapter: the unknown
    name "nope" is answered with [None] and with [0]. *)
Lemma getters_of_unknown_name_counterexample :
  dict_get (WorldAdapter.datasources default_channels) "nope" = None /\
  dict_get (WorldAdapter.datatarget_feedback default_channels) "nope" = None /\
  WorldAdapter.get_datasource_value default_channels "nope" = PyNone /\
  WorldAdapter.get_datatarget_feedback_value default_channels "nope" = PyInt 0.
Proof. repeat split; reflexivity. Qed.

(** *** Available datasources *)

Lemma registered_names_slots (r : registration) :
  length (registered_names r) = length (registered_slots r).
Proof.
  destruct r as [name v|name shape]; simpl; [reflexivity|].
  rewrite member_names_length, repeat_length. reflexivity.
Qed.

Lemma register_valid (self : t) (r : registration) :
  valid r ->
  exists self',
    register self r = Ok self' /\
    datasource_names self' = datasource_names self ++ registered_names r /\
    datasource_values self' = datasource_values self ++ registered_slots r.
Proof.
  destruct r as [name v|name shape]; simpl; intros Hv.
  - eexists. repeat split.
  - rewrite add_datasource_group_valid by exact Hv.
    eexists. repeat split.
Qed.

Lemma register_all_valid (rs : list registration) :
  Forall valid rs ->
  forall self, exists self',
    register_all self rs = Ok self' /\
    datasource_names self' =
      datasource_names self ++ concat (map registered_names rs) /\
    datasource_values self' =
      datasource_values self ++ concat (map registered_slots rs).
Proof.
  induction 1 as [|r rs Hr _ IH]; intros self; simpl.
  - exists self. rewrite !app_nil_r. repeat split.
  - destruct (register_valid self r Hr) as (self1 & -> & Hn1 & Hv1).
    destruct (IH self1) as (self' & Hrun & Hn & Hv).
    exists self'. cbv [mbind result_bind].
    rewrite Hn, Hv, Hn1, Hv1, <- !app_assoc. repeat split. exact Hrun.
Qed.

Lemma concat_lengths {A B} (f : registration -> list A) (g : registration -> list B)
  (rs : list registration) :
  (forall r, length (f r) = length (g r)) ->
  length (concat (map f rs)) = length (concat (map g rs)).
Proof.
  intros Hfg. induction rs as [|r rs IH]; simpl; [reflexivity|].
  rewrite !length_app, IH, Hfg. reflexivity.
Qed.

Lemma insert_sorted_perm (x : string) (l : list string) :
  Permutation (insert_sorted x l) (x :: l).
Proof.
  induction l as [|y l IH]; simpl; [reflexivity|].
  destruct (String.leb x y); [reflexivity|].
  rewrite IH. apply perm_swap.
Qed.

Lemma sorted_perm (l : list string) : Permutation (sorted l) l.
Proof.
  induction l as [|x l IH]; simpl; [reflexivity|].
  rewrite insert_sorted_perm, IH. reflexivity.
Qed.

Lemma insert_sorted_ascending (x : string) (l : list string) :
  ascending l -> ascending (insert_sorted x l).
Proof.
  unfold ascending. induction 1 as [|y l Hl IH Hhd]; simpl.
  - repeat constructor.
  - destruct (String.leb x y) eqn:Hxy.
    + repeat constructor; assumption.
    + constructor; [exact IH|].
      assert (Hyx : String.leb y x = true)
        by (destruct (String.leb_total x y); congruence).
      destruct Hhd as [|z l Hyz]; simpl; [repeat constructor; exact Hyx|].
      destruct (String.leb x z); constructor; assumption.
Qed.

Lemma sorted_ascending (l : list string) : ascending (sorted l).
Proof.
  induction l as [|x l IH]; simpl; [constructor|].
  apply insert_sorted_ascending, IH.
Qed.

Lemma mapM_result_length {A B} (f : A -> result B) (l : list A) (k : list B) :
  mapM f l = Ok k -> length k = length l.
Proof.
  revert k. induction l as [|x l IH]; intros k; simpl.
  - intros [= <-]. reflexivity.
  - cbv [mbind result_bind mret result_ret]. destruct (f x) as [y|e]; [|discriminate].
    destruct (mapM f l) as [k'|e] eqn:E; [|discriminate].
    intros [= <-]. simpl. f_equal. apply IH. reflexivity.
Qed.

(** C9, as the code has it.  On the array adapter, after any sequence of
    valid registrations the available datasources are exactly the
    registered scalar and member names in registration order, and the
    value buffer has one slot per name.  On the dictionary-based adapter
    the available datasources are the registered names in ascending
    order, and the list of all values, when it can be built, has one
    value per name. *)
Theorem available_datasources_registered (rs : list registration)
  (dict_self : WorldAdapter.t) :
  Forall valid rs ->
  (exists self,
     register_all init rs = Ok self /\
     get_available_datasources self = concat (map registered_names rs) /\
     get_datasource_values self = concat (map registered_slots rs) /\
     length (get_datasource_values self) = length (get_available_datasources self))
  /\
  (Permutation (WorldAdapter.get_available_datasources dict_self)
               (dict_keys (WorldAdapter.datasources dict_self)) /\
   ascending (WorldAdapter.get_available_datasources dict_self) /\
   forall values,
     WorldAdapter.get_datasource_values dict_self = Ok values ->
     length values = length (WorldAdapter.get_available_datasources dict_self)).
Proof.
  intros Hvalid. split.
  - destruct (register_all_valid rs Hvalid init) as (self & Hrun & Hn & Hv).
    exists self. unfold get_available_datasources, get_datasource_values.
    rewrite Hn, Hv. simpl. repeat split; [exact Hrun|].
    symmetry. apply concat_lengths, registered_names_slots.
  - split; [apply sorted_perm|]. split; [apply sorted_ascending|].
    intros values. apply mapM_result_length.
Qed.

Lemma available_datasources_registered_witness :
  Forall valid default_array_sources /\
  exists self,
    register_all init default_array_sources = Ok self /\
    get_available_datasources self =
      concat (map registered_names default_array_sources) /\
    get_datasource_values self =
      concat (map registered_slots default_array_sources) /\
    length (get_datasource_values self) = length (get_available_datasources self).
Proof.
  assert (Hv : Forall valid default_array_sources).
  { repeat constructor; simpl; try discriminate; lia. }
  split; [exact Hv|].
  exact (proj1 (available_datasources_registered
                  default_array_sources WorldAdapter.init Hv)).
Defined.

(** The claim of C9 fails on the dictionary-based [Default] adapter: its
    datasources are registered as static_on, random, static_off and are
    listed as random, static_off, static_on. *)
Lemma available_datasources_counterexample :
  (self ← Default.init 0.5%float;
   Ok (dict_keys (WorldAdapter.datasources self),
       WorldAdapter.get_available_datasources self)) =
  Ok (["static_on"; "random"; "static_off"],
      ["random"; "static_off"; "static_on"]).
Proof. reflexivity. Qed.

End ArrayAdapter.

(** ** The time-series world: normalisation at load *)

Section Normalisation.
Import TimeSeries.

(** There is one NaN. *)
Lemma is_nan_eq (x : float) : PrimFloat.is_nan x = true -> x = nan.
Proof.
  unfold PrimFloat.is_nan. rewrite FloatAxioms.eqb_spec. intros Hx.
  rewrite <- (SF2Prim_Prim2SF x).
  destruct (Prim2SF x) as [s|s| |s m e]; try reflexivity; exfalso;
    revert Hx; unfold SpecFloat.SFeqb; simpl.
  - discriminate.
  - destruct s; discriminate.
  - destruct s; rewrite Z.compare_refl, ?Pos.compare_cont_refl; discriminate.
Qed.

(** [std == 0] excludes [std > 0]. *)
Lemma eqb_zero_not_positive (x : float) :
  PrimFloat.eqb x 0 = true -> PrimFloat.ltb 0 x = false.
Proof.
  rewrite FloatAxioms.eqb_spec, FloatAxioms.ltb_spec.
  change (Prim2SF 0) with (SpecFloat.S754_zero false).
  unfold SpecFloat.SFeqb, SpecFloat.SFltb.
  destruct (Prim2SF x) as [s|s| |s m e]; simpl; try reflexivity;
    destruct s; discriminate.
Qed.

Lemma all_isnan_repeat (n : nat) : all_isnan (repeat nan n) = true.
Proof. induction n; simpl; [reflexivity|exact IHn]. Qed.

Variable np_exp : float -> float.
Variables np_nanmean np_nanvar : list float -> float.

(** The logistic function of an undefined entry. *)
Lemma sigm1_nan : sigm1 np_exp nan = (1 / (1 + np_exp nan))%float.
Proof. reflexivity. Qed.

Lemma sigm1_nan_undefined :
  PrimFloat.is_nan (np_exp nan) = true -> sigm1 np_exp nan = nan.
Proof. intros H%is_nan_eq. rewrite sigm1_nan, H. reflexivity. Qed.

(** A row that is skipped, because its deviation is not positive, stays
    as [data_z] was initialised. *)
Lemma data_z_row_skipped (row : list float) :
  PrimFloat.ltb 0 (row_std np_nanvar row) = false ->
  data_z_row np_nanmean np_nanvar row = repeat nan (length row).
Proof.
  intros Hstd. unfold data_z_row. rewrite Hstd.
  destruct (negb (all_isnan row)); reflexivity.
Qed.

Lemma normalize_rows (data : matrix) :
  rows (normalize np_exp np_nanmean np_nanvar data) =
  map (fun row => map (sigm1 np_exp) (data_z_row np_nanmean np_nanvar row))
      (rows data).
Proof. unfold normalize, sigm, data_z. simpl. apply map_map. Qed.

(** C3, as the code has it.  A row that is not entirely undefined and
    whose standard deviation is zero is not normalised and not kept: its
    row of [data_z] stays undefined (NaN) throughout, and the loaded
    row holds the logistic function of NaN in every entry, which is NaN
    whenever [exp] propagates NaN; the loaded row then differs from the
    stored one. *)
Theorem zero_deviation_row_is_undefined (data : matrix) (i : nat)
  (row : list float) :
  nth_error (rows data) i = Some row ->
  all_isnan row = false ->
  PrimFloat.eqb (row_std np_nanvar row) 0 = true ->
  let undefined := repeat nan (length row) in
  let loaded := rows (normalize np_exp np_nanmean np_nanvar data) in
  nth_error (data_z np_nanmean np_nanvar data) i = Some undefined /\
  nth_error loaded i =
    Some (repeat (1 / (1 + np_exp nan))%float (length row)) /\
  (PrimFloat.is_nan (np_exp nan) = true ->
   nth_error loaded i = Some undefined /\ undefined <> row).
Proof.
  intros Hrow Hdef Hstd%eqb_zero_not_positive undefined loaded.
  assert (Hz : data_z_row np_nanmean np_nanvar row = undefined)
    by (apply data_z_row_skipped, Hstd).
  assert (Hloaded : nth_error loaded i =
                    Some (repeat (sigm1 np_exp nan) (length row))).
  { unfold loaded. rewrite normalize_rows, nth_error_map, Hrow. simpl.
    rewrite Hz. unfold undefined. rewrite map_repeat. reflexivity. }
  split; [|split].
  - unfold data_z. rewrite nth_error_map, Hrow. simpl. rewrite Hz. reflexivity.
  - exact Hloaded.
  - intros Hexp. split.
    + rewrite Hloaded, (sigm1_nan_undefined Hexp). reflexivity.
    + intros Heq. rewrite <- Heq in Hdef. unfold undefined in Hdef.
      rewrite all_isnan_repeat in Hdef. discriminate.
Qed.

End Normalisation.

Lemma zero_deviation_row_is_undefined_witness :
  let row := [5; 5; 5]%float in
  let nanmean := TimeSeries.nanmean_seq in
  let nanvar := TimeSeries.nanvar_seq in
  TimeSeries.all_isnan row = false /\
  PrimFloat.eqb (TimeSeries.row_std nanvar row) 0 = true /\
  forall np_exp : float -> float,
    nth_error (TimeSeries.data_z nanmean nanvar constant_row_data) 2 =
      Some [nan; nan; nan] /\
    nth_error (TimeSeries.rows
                 (TimeSeries.normalize np_exp nanmean nanvar constant_row_data)) 2 =
      Some (repeat (1 / (1 + np_exp nan))%float 3).
Proof.
  intros row nanmean nanvar.
  split; [reflexivity|]. split; [reflexivity|]. intros np_exp.
  pose proof (zero_deviation_row_is_undefined np_exp nanmean nanvar
                constant_row_data 2 row eq_refl eq_refl eq_refl) as H.
  exact (conj (proj1 H) (proj1 (proj2 H))).
Defined.

(** The claim of C3 fails on the constant row 5, 5, 5: it is defined,
    its deviation is zero, and it is loaded as the logistic function of
    NaN, not as 5, 5, 5. *)
Lemma zero_deviation_row_counterexample :
  let row := [5; 5; 5]%float in
  let nanmean := TimeSeries.nanmean_seq in
  let nanvar := TimeSeries.nanvar_seq in
  TimeSeries.all_isnan row = false /\
  TimeSeries.row_std nanvar row = 0%float /\
  TimeSeries.data_z nanmean nanvar (TimeSeries.Matrix 3 [row]) = [[nan; nan; nan]] /\
  forall np_exp : float -> float,
    TimeSeries.rows
      (TimeSeries.normalize np_exp nanmean nanvar (TimeSeries.Matrix 3 [row])) =
    [repeat (1 / (1 + np_exp nan))%float 3] /\
    (PrimFloat.is_nan (np_exp nan) = true ->
     TimeSeries.rows
       (TimeSeries.normalize np_exp nanmean nanvar (TimeSeries.Matrix 3 [row])) =
     [[nan; nan; nan]]).
Proof.
  intros row nanmean nanvar.
  split; [reflexivity|]. split; [reflexivity|]. split; [reflexivity|].
  intros np_exp. split; [reflexivity|].
  intros H%is_nan_eq.
  change (TimeSeries.rows
            (TimeSeries.normalize np_exp nanmean nanvar (TimeSeries.Matrix 3 [row])))
    with [repeat (1 / (1 + np_exp nan))%float 3].
  rewrite H. reflexivity.
Qed.

(** ** The time-series world: playback *)

Section Playback.
Import Np TimeSeries.

Lemma getitem_in_range {A} (l : list A) (i : Z) (d : A) :
  0 <= i < Z.of_nat (length l) -> getitem l i = Ok (nth (Z.to_nat i) l d).
Proof.
  intros Hi. unfold getitem.
  destruct (Z.ltb_spec i 0); [lia|].
  destruct (Z.leb_spec 0 i); [|lia].
  destruct (Z.ltb_spec i (Z.of_nat (length l))); [|lia]. simpl.
  rewrite (nth_error_nth' l d) by lia. reflexivity.
Qed.

Lemma column_in_range (m : matrix) (t : Z) :
  rectangular m -> 0 <= t < Z.of_nat (ncols m) ->
  column m t = Ok (column_at m (Z.to_nat t)).
Proof.
  intros Hrect Ht. unfold column, column_at.
  destruct (Z.leb_spec (- Z.of_nat (ncols m)) t); [|lia].
  destruct (Z.ltb_spec t (Z.of_nat (ncols m))); [|lia]. simpl.
  unfold rectangular in Hrect.
  induction Hrect as [|row rws Hrow _ IH]; simpl; [reflexivity|].
  cbv [mbind result_bind mret result_ret] in *.
  rewrite (getitem_in_range row t 0%float) by lia.
  rewrite IH. reflexivity.
Qed.

(** The loaded dataset has the shape of the archive's. *)
Lemma normalize_rectangular np_exp np_nanmean np_nanvar (data : matrix) :
  rectangular data ->
  rectangular (normalize np_exp np_nanmean np_nanvar data) /\
  ncols (normalize np_exp np_nanmean np_nanvar data) = ncols data.
Proof.
  intros Hrect. split; [|reflexivity].
  unfold rectangular in *. rewrite normalize_rows. simpl.
  apply Forall_map. eapply Forall_impl; [exact Hrect|].
  intros row Hrow. simpl in *. rewrite length_map. unfold data_z_row, row_z.
  repeat match goal with |- context [if ?b then _ else _] => destruct b end;
    rewrite ?length_map, ?repeat_length; exact Hrow.
Qed.

Variable Rng : Type.
Variable random_permutation : Rng -> list Z -> list Z * Rng.

Abbreviation state_index := (state_index Rng random_permutation).
Abbreviation state := (state Rng random_permutation).
Abbreviation visited := (visited Rng random_permutation).

(** C5. Without shuffling, and for a dataset with at least one column,
    [state] returns the column [(step - 1) mod length] of the loaded
    dataset and changes nothing; the result is the same whatever the
    generator and the stored permutation are. *)
Theorem state_without_shuffle (self : world) (g : Rng) :
  shuffle self = false ->
  rectangular (timeseries self) ->
  len_ts self = Z.of_nat (ncols (timeseries self)) ->
  0 < len_ts self ->
  let t := (current_step self - 1) mod len_ts self in
  let col := column_at (timeseries self) (Z.to_nat t) in
  state self g = Ok (col, self, g) /\
  forall (p : list Z) (g' : Rng),
    state (set_permutation self p) g' = Ok (col, set_permutation self p, g').
Proof.
  intros Hshuffle Hrect Hlen Hpos t col.
  assert (Ht : 0 <= t < Z.of_nat (ncols (timeseries self))).
  { rewrite <- Hlen. apply Z.mod_pos_bound, Hpos. }
  assert (Hread : forall (w : world) (g0 : Rng),
             shuffle w = false -> timeseries w = timeseries self ->
             len_ts w = len_ts self -> current_step w = current_step self ->
             state w g0 = Ok (col, w, g0)).
  { intros w g0 Hs Hts Hl Hc. unfold TimeSeries.state, TimeSeries.state_index, py_mod.
    rewrite Hs, Hl, Hc. destruct (Z.eqb_spec (len_ts self) 0); [lia|].
    cbv [mbind result_bind]. rewrite Hts.
    fold t. rewrite (column_in_range _ t Hrect Ht). reflexivity. }
  split; [apply Hread; auto|].
  intros p g'. apply Hread; auto.
Qed.

(** What [__init__] establishes: the loaded dataset is rectangular and
    [len_ts] is its number of columns. *)
Lemma init_well_formed np_exp np_nanmean np_nanvar (data : matrix)
  (ids : list string) (step : Z) :
  rectangular data ->
  let self := init np_exp np_nanmean np_nanvar data ids step in
  rectangular (timeseries self) /\
  len_ts self = Z.of_nat (ncols (timeseries self)) /\
  len_ts self = Z.of_nat (ncols data) /\
  shuffle self = true /\ permutation self = None /\ current_step self = step.
Proof.
  intros Hrect self.
  destruct (normalize_rectangular np_exp np_nanmean np_nanvar data Hrect) as [H1 H2].
  repeat split; assumption.
Qed.

(** *** Shuffled playback *)

(** A read at wrapped position zero draws a new permutation. *)
Lemma state_index_regenerates (self : world) (g : Rng) :
  shuffle self = true -> len_ts self <> 0 ->
  (current_step self - 1) mod len_ts self = 0 ->
  let drawn := random_permutation g (arange (Z.to_nat (len_ts self))) in
  state_index self g =
  (t ← getitem drawn.1 0; Ok (t, set_permutation self drawn.1, drawn.2)).
Proof.
  intros Hs Hlen Ht drawn. unfold TimeSeries.state_index, py_mod.
  destruct (Z.eqb_spec (len_ts self) 0); [contradiction|].
  cbv [mbind result_bind]. rewrite Hs, Ht. simpl.
  unfold drawn. destruct (random_permutation _ _) as [p g']. reflexivity.
Qed.

(** A read at any other position uses the stored permutation and leaves
    the world and the generator as they are. *)
Lemma state_index_keeps (self : world) (g : Rng) :
  shuffle self = true -> len_ts self <> 0 ->
  (current_step self - 1) mod len_ts self <> 0 ->
  state_index self g =
  (p ← match permutation self with
       | Some p => Ok p
       | None => Raise AttributeError
       end;
   t ← getitem p ((current_step self - 1) mod len_ts self);
   Ok (t, self, g)).
Proof.
  intros Hs Hlen Ht. unfold TimeSeries.state_index, py_mod.
  destruct (Z.eqb_spec (len_ts self) 0); [contradiction|].
  cbv [mbind result_bind]. rewrite Hs.
  destruct (Z.eqb_spec ((current_step self - 1) mod len_ts self) 0);
    [contradiction|reflexivity].
Qed.

Lemma drop_nth {A} (l : list A) (a : nat) (d : A) :
  (a < length l)%nat -> drop a l = nth a l d :: drop (S a) l.
Proof.
  revert a. induction l as [|x l IH]; intros a Ha; simpl in *; [lia|].
  destruct a as [|a]; [reflexivity|]. simpl. apply IH. lia.
Qed.

(** The reads at wrapped positions [a, a + m), none of them zero, visit
    the stored permutation's entries at these positions. *)
Lemma visited_positions (k : Z) (p : list Z) (m : nat) :
  forall (a : nat) (self : world) (g : Rng),
    shuffle self = true -> permutation self = Some p ->
    len_ts self = Z.of_nat (length p) ->
    (1 <= a)%nat -> (a + m <= length p)%nat ->
    exists self',
      visited self g
        (map (fun j => k * len_ts self + 1 + j) (map Z.of_nat (seq a m))) =
      Ok (take m (drop a p), self', g) /\
      permutation self' = Some p.
Proof.
  induction m as [|m IH]; intros a self g Hs Hp Hlen Ha Ham; simpl.
  - exists self. split; [reflexivity|exact Hp].
  - set (s := k * len_ts self + 1 + Z.of_nat a).
    set (self1 := set_current_step self s).
    assert (Ht : (current_step self1 - 1) mod len_ts self1 = Z.of_nat a).
    { simpl. unfold s. replace (k * len_ts self + 1 + Z.of_nat a - 1)
        with (Z.of_nat a + k * len_ts self) by lia.
      rewrite Z_mod_plus_full. apply Z.mod_small. lia. }
    rewrite (state_index_keeps self1 g Hs); [|simpl; lia|rewrite Ht; lia].
    rewrite Ht. simpl permutation. rewrite Hp.
    cbv [mbind result_bind].
    rewrite (getitem_in_range p (Z.of_nat a) 0) by lia.
    destruct (IH (S a) self1 g) as (self' & Hrun & Hp'); try assumption; try lia.
    change (len_ts self1) with (len_ts self) in Hrun.
    rewrite Hrun. exists self'. split; [|exact Hp'].
    rewrite Nat2Z.id, (drop_nth p a 0) by lia. reflexivity.
Qed.

Hypothesis random_permutation_permutes :
  forall (g : Rng) (l : list Z), Permutation (random_permutation g l).1 l.

(** C6. With shuffling, the reads for steps [k*L + 1 .. (k+1)*L] visit
    the entries of one permutation of [0 .. L-1], drawn at the first of
    them, in order: every time index exactly once.  The generator is used
    once in the window; a single read draws a new permutation when its
    wrapped position is zero and otherwise changes neither the world nor
    the generator. *)
Theorem shuffled_window_visits_every_index_once (self : world) (g : Rng) (k : Z) :
  shuffle self = true ->
  0 < len_ts self ->
  let L := len_ts self in
  let idxs := arange (Z.to_nat L) in
  let steps := map (fun j => k * L + 1 + j) idxs in
  let drawn := random_permutation g idxs in
  (exists self',
     visited self g steps = Ok (drawn.1, self', drawn.2) /\
     permutation self' = Some drawn.1) /\
  Permutation drawn.1 idxs /\ NoDup drawn.1 /\
  (forall (s : Z) (g0 : Rng) t self' g',
     state_index (set_current_step self s) g0 = Ok (t, self', g') ->
     if (s - 1) mod L =? 0
     then permutation self' = Some (random_permutation g0 idxs).1 /\
          g' = (random_permutation g0 idxs).2
     else self' = set_current_step self s /\ g' = g0).
Proof.
  intros Hs Hpos L idxs steps drawn.
  pose proof (random_permutation_permutes g idxs) as Hperm. fold drawn in Hperm.
  assert (Hlen : length drawn.1 = Z.to_nat L).
  { rewrite (Permutation_length Hperm). unfold idxs, arange.
    rewrite length_map, length_seq. reflexivity. }
  split; [|split; [exact Hperm|split]].
  - unfold steps, idxs, arange.
    destruct (Z.to_nat L) as [|n] eqn:HL; [lia|].
    cbn [seq map TimeSeries.visited].
    set (self0 := set_current_step self (k * L + 1 + Z.of_nat 0)).
    assert (Ht : (current_step self0 - 1) mod len_ts self0 = 0).
    { simpl. fold L. replace (k * L + 1 + Z.of_nat 0 - 1) with (0 + k * L) by lia.
      rewrite Z_mod_plus_full. reflexivity. }
    rewrite (state_index_regenerates self0 g Hs) by (simpl; fold L; lia || exact Ht).
    change (len_ts self0) with L. rewrite HL.
    change (random_permutation g (arange (S n))) with drawn.
    cbv [mbind result_bind].
    rewrite (getitem_in_range drawn.1 0 0) by lia.
    destruct (visited_positions k drawn.1 n 1
                (set_permutation self0 drawn.1) drawn.2 Hs eq_refl)
      as (self' & Hrun & Hp');
      [change (L = Z.of_nat (length drawn.1)); lia | lia | lia |].
    change (len_ts (set_permutation self0 drawn.1)) with L in Hrun.
    rewrite Hrun. exists self'. split; [|exact Hp'].
    do 3 f_equal. change (Z.to_nat 0) with 0%nat.
    rewrite firstn_all2 by (rewrite length_drop; lia).
    symmetry. apply (drop_nth drawn.1 0 0). lia.
  - apply NoDup_ListNoDup, (Permutation_NoDup (Permutation_sym Hperm)).
    unfold idxs, arange. apply Finite.Injective_map_NoDup; [|apply seq_NoDup].
    intros x y. apply Nat2Z.inj.
  - intros s g0 t self' g'.
    destruct (Z.eqb_spec ((s - 1) mod L) 0) as [Hz|Hnz].
    + rewrite (state_index_regenerates (set_current_step self s) g0 Hs)
        by (simpl; fold L; lia || exact Hz).
      change (len_ts (set_current_step self s)) with L. fold idxs.
      cbv [mbind result_bind].
      destruct (getitem _ 0); [|discriminate].
      intros [= <- <- <-]. split; reflexivity.
    + rewrite (state_index_keeps (set_current_step self s) g0 Hs)
        by (simpl; fold L; lia || exact Hnz).
      cbv [mbind result_bind].
      destruct (permutation (set_current_step self s)); [|discriminate].
      destruct (getitem _ _); [|discriminate].
      intros [= <- <- <-]. split; reflexivity.
Qed.

End Playback.

Lemma state_without_shuffle_witness :
  TimeSeries.state nat reversing (playback_world false 5) 7%nat =
  Ok ([2; 5]%float, playback_world false 5, 7%nat).
Proof.
  assert (Hrect : TimeSeries.rectangular
                    (TimeSeries.timeseries (playback_world false 5)))
    by (repeat constructor).
  exact (proj1 (state_without_shuffle nat reversing (playback_world false 5)
                  7%nat eq_refl Hrect eq_refl eq_refl)).
Defined.

Lemma reversing_permutes (g : nat) (l : list Z) : Permutation (reversing g l).1 l.
Proof. symmetry. apply Permutation_rev. Qed.

Lemma shuffled_window_visits_every_index_once_witness :
  (exists self',
     TimeSeries.visited nat reversing (playback_world true 0) 0%nat [4; 5; 6] =
       Ok ([2; 1; 0], self', 1%nat) /\
     TimeSeries.permutation self' = Some [2; 1; 0]) /\
  Permutation [2; 1; 0] [0; 1; 2].
Proof.
  pose proof (shuffled_window_visits_every_index_once nat reversing
                reversing_permutes (playback_world true 0) 0%nat 1
                eq_refl eq_refl) as H.
  exact (conj (proj1 H) (proj1 (proj2 H))).
Defined.

(** ** Further example objects *)

(** The array adapter with the scalar "test" and a group of shape (2, 3)
    on either side. *)
Definition with_groups : ArrayWorldAdapter.t :=
  match ArrayWorldAdapter.add_datasource_group (registered_once "test")
          "vision" [2; 3] ArrayWorldAdapter.NoInitial with
  | Ok (_, self) =>
      match ArrayWorldAdapter.add_datatarget_group self
              "action" [2; 3] ArrayWorldAdapter.NoInitial with
      | Ok (_, self) => self
      | Raise _ => self
      end
  | Raise _ => registered_once "test"
  end.

(** The values 1 to 6 in shape (2, 3). *)
Definition one_to_six : Np.ndarray :=
  Np.NdArray [2; 3] [1; 2; 3; 4; 5; 6]%float.

(** A dictionary-based adapter whose echo target holds 3. *)
Definition echo_three : WorldAdapter.t :=
  WorldAdapter.Make [] [("echo", PyInt 3)] [("echo", PyInt 0)].

(** A generator whose samples are all 0.5 and that counts its draws. *)
Definition constant_randn (g : nat) (n : nat) : list float * nat :=
  (repeat 0.5%float n, S g).

(** * Further properties of the adapters *)

(** ** Lists addressed by name *)

Section ByName.

Lemma nth_error_lookup {A} (l : list A) (i : nat) : nth_error l i = l !! i.
Proof. revert i. induction l as [|x l IH]; intros [|i]; simpl; auto. Qed.

Lemma getitem_nat {A} (l : list A) (i : nat) :
  getitem l (Z.of_nat i) =
  match l !! i with Some a => Ok a | None => Raise IndexError end.
Proof.
  unfold getitem. destruct (Z.ltb_spec (Z.of_nat i) 0); [lia|].
  destruct (Z.leb_spec 0 (Z.of_nat i)); [|lia]. rewrite Nat2Z.id, nth_error_lookup.
  destruct (Z.ltb_spec (Z.of_nat i) (Z.of_nat (length l))); simpl.
  - reflexivity.
  - rewrite lookup_ge_None_2 by lia. reflexivity.
Qed.

Lemma setitem_nat {A} (l : list A) (i : nat) (v : A) :
  setitem l (Z.of_nat i) v =
  if decide (i < length l)%nat then Ok (<[i := v]> l) else Raise IndexError.
Proof.
  unfold setitem. destruct (Z.ltb_spec (Z.of_nat i) 0); [lia|].
  destruct (Z.leb_spec 0 (Z.of_nat i)); [|lia]. rewrite Nat2Z.id.
  destruct (Z.ltb_spec (Z.of_nat i) (Z.of_nat (length l)));
    destruct (decide (i < length l)%nat); simpl; try reflexivity; lia.
Qed.

Lemma list_index_lookup (l : list string) (x : string) (i : nat) :
  list_index l x = Ok i -> l !! i = Some x.
Proof.
  revert i. induction l as [|y l IH]; intros i; simpl; [discriminate|].
  destruct (String.eqb_spec y x) as [->|Hne].
  - intros [= <-]. reflexivity.
  - cbv [mbind result_bind]. destruct (list_index l x) as [n|e]; [|discriminate].
    intros [= <-]. simpl. apply IH. reflexivity.
Qed.

Lemma list_index_present (l : list string) (x : string) :
  x ∈ l -> exists i, list_index l x = Ok i.
Proof.
  induction l as [|y l IH]; simpl.
  - intros ?%elem_of_nil. contradiction.
  - intros Hin. destruct (String.eqb_spec y x) as [->|Hne]; [eauto|].
    apply elem_of_cons in Hin as [->|Hin]; [contradiction|].
    destruct (IH Hin) as [i ->]. eauto.
Qed.

Lemma list_index_app (l k : list string) (x : string) (i : nat) :
  list_index l x = Ok i -> list_index (l ++ k) x = Ok i.
Proof.
  revert i. induction l as [|y l IH]; intros i; simpl; [discriminate|].
  destruct (String.eqb y x); [auto|].
  cbv [mbind result_bind]. destruct (list_index l x) as [n|e]; [|discriminate].
  intros [= <-]. rewrite (IH n eq_refl). reflexivity.
Qed.

(** [values[names.index(name)]] *)
Definition read (names : list string) (values : list float) (name : string)
  : result float :=
  i ← list_index names name; getitem values (Z.of_nat i).

(** Writing under a registered name changes what this name reads, and
    nothing else. *)
Lemma write_read (names : list string) (values : list float) (key : string)
  (f : float -> float) :
  key ∈ names -> (length names <= length values)%nat ->
  exists i old,
    list_index names key = Ok i /\ values !! i = Some old /\
    setitem values (Z.of_nat i) (f old) = Ok (<[i := f old]> values) /\
    forall name,
      read names (<[i := f old]> values) name =
      if decide (name = key) then Ok (f old) else read names values name.
Proof.
  intros Hin Hlen. destruct (list_index_present names key Hin) as [i Hi].
  pose proof (list_index_lookup names key i Hi) as Hnames.
  pose proof (lookup_lt_Some _ _ _ Hnames) as Hlt.
  destruct (lookup_lt_is_Some_2 values i ltac:(lia)) as [old Hold].
  exists i, old. split; [exact Hi|]. split; [exact Hold|]. split.
  - rewrite setitem_nat. destruct (decide (i < length values)%nat); [reflexivity|lia].
  - intros name. unfold read. cbv [mbind result_bind].
    destruct (list_index names name) as [j|e] eqn:Hj.
    + pose proof (list_index_lookup names name j Hj) as Hnames'.
      rewrite !getitem_nat. destruct (decide (name = key)) as [->|Hne].
      * assert (j = i) as -> by congruence.
        rewrite list_lookup_insert_eq by lia. reflexivity.
      * assert (i <> j) by congruence.
        rewrite list_lookup_insert_ne by assumption. reflexivity.
    + destruct (decide (name = key)) as [->|Hne]; [congruence|reflexivity].
Qed.

End ByName.

(** ** Scalar writers of the array adapter *)

Section ScalarWriters.
Import Np ArrayWorldAdapter.

(** X1. Setting a registered datasource changes what this name reads to
    the new value and leaves every other name's reading, the names and
    the target buffers as they were. *)
Theorem set_datasource_value_then_get (self : t) (key : string) (value : float) :
  key ∈ datasource_names self ->
  (length (datasource_names self) <= length (datasource_values self))%nat ->
  exists self',
    set_datasource_value self key value = Ok self' /\
    datasource_names self' = datasource_names self /\
    datatarget_values self' = datatarget_values self /\
    datatarget_feedback_values self' = datatarget_feedback_values self /\
    forall name,
      get_datasource_value self' name =
      if decide (name = key) then Ok value else get_datasource_value self name.
Proof.
  intros Hin Hlen.
  destruct (write_read _ _ key (fun _ => value) Hin Hlen)
    as (i & old & Hi & _ & Hset & Hread).
  eexists. unfold set_datasource_value, get_datasource_index.
  rewrite Hi. cbv [mbind result_bind]. rewrite Hset.
  repeat split. exact Hread.
Qed.

(** X2. The target buffer and the feedback buffer are written
    independently: setting a registered datatarget changes this name's
    target value only, setting its feedback changes this name's feedback
    value only. *)
Theorem set_datatarget_and_feedback_independent (self : t) (key : string)
  (value : float) :
  key ∈ datatarget_names self ->
  (length (datatarget_names self) <= length (datatarget_values self))%nat ->
  (length (datatarget_names self) <= length (datatarget_feedback_values self))%nat ->
  (exists self',
     set_datatarget_value self key value = Ok self' /\
     forall name,
       get_datatarget_value self' name =
         (if decide (name = key) then Ok value else get_datatarget_value self name) /\
       get_datatarget_feedback_value self' name =
         get_datatarget_feedback_value self name) /\
  (exists self',
     set_datatarget_feedback_value self key value = Ok self' /\
     forall name,
       get_datatarget_feedback_value self' name =
         (if decide (name = key) then Ok value
          else get_datatarget_feedback_value self name) /\
       get_datatarget_value self' name = get_datatarget_value self name).
Proof.
  intros Hin Hlen Hlenf. split.
  - destruct (write_read _ _ key (fun _ => value) Hin Hlen)
      as (i & old & Hi & _ & Hset & Hread).
    eexists. unfold set_datatarget_value, get_datatarget_index.
    rewrite Hi. cbv [mbind result_bind]. rewrite Hset.
    split; [reflexivity|]. intros name. split; [apply Hread|reflexivity].
  - destruct (write_read _ _ key (fun _ => value) Hin Hlenf)
      as (i & old & Hi & _ & Hset & Hread).
    eexists. unfold set_datatarget_feedback_value, get_datatarget_index.
    rewrite Hi. cbv [mbind result_bind]. rewrite Hset.
    split; [reflexivity|]. intros name. split; [apply Hread|reflexivity].
Qed.

(** X3. [add_to_datatarget] on the array adapter accumulates: a
    registered name afterwards reads its old value plus [value], every
    other name reads as before; an unregistered name raises
    [ValueError]. *)
Theorem array_add_to_datatarget_accumulates (self : t) (key : string)
  (value : float) :
  (length (datatarget_names self) <= length (datatarget_values self))%nat ->
  (key ∉ datatarget_names self ->
   add_to_datatarget self key value = Raise ValueError) /\
  (key ∈ datatarget_names self ->
   exists old self',
     get_datatarget_value self key = Ok old /\
     add_to_datatarget self key value = Ok self' /\
     forall name,
       get_datatarget_value self' name =
       if decide (name = key) then Ok (old + value)%float
       else get_datatarget_value self name).
Proof.
  intros Hlen. split.
  - intros Hnin. unfold add_to_datatarget, get_datatarget_index.
    rewrite list_index_absent by exact Hnin. reflexivity.
  - intros Hin.
    destruct (write_read _ _ key (fun old => (old + value)%float) Hin Hlen)
      as (i & old & Hi & Hold & Hset & Hread).
    exists old. eexists.
    unfold add_to_datatarget, get_datatarget_value, get_datatarget_index.
    rewrite Hi. cbv [mbind result_bind]. rewrite getitem_nat, Hold, Hset.
    repeat split. exact Hread.
Qed.

End ScalarWriters.

(** ** Writers of the dictionary-based adapter *)

Section DictWriters.
Import WorldAdapter.

(** X4. [add_to_datatarget] of the dictionary-based adapter never
    registers a datatarget: an unknown key is ignored without an error
    and without a change, and a successful call keeps the names and
    their order, changes no other name's value and leaves the sources
    and the feedback alone; a known key then holds the sum. *)
Theorem dict_add_to_datatarget_never_registers (self : t) (key : string)
  (value : pyval) :
  (dict_get (datatargets self) key = None ->
   add_to_datatarget self key value = Ok self) /\
  (forall self',
     add_to_datatarget self key value = Ok self' ->
     dict_keys (datatargets self') = dict_keys (datatargets self) /\
     datasources self' = datasources self /\
     datatarget_feedback self' = datatarget_feedback self /\
     (forall name, name <> key ->
        dict_get (datatargets self') name = dict_get (datatargets self) name) /\
     (forall old, dict_get (datatargets self) key = Some old ->
        exists new, py_add old value = Ok new /\
                    dict_get (datatargets self') key = Some new)).
Proof.
  unfold add_to_datatarget. split.
  - intros ->. reflexivity.
  - intros self'. destruct (dict_get (datatargets self) key) as [old|] eqn:Hold.
    + cbv [mbind result_bind].
      destruct (py_add old value) as [new|e] eqn:Hadd; [|discriminate].
      intros [= <-]. simpl.
      split; [apply dict_keys_set, dict_get_keys; rewrite Hold; eauto|].
      split; [reflexivity|]. split; [reflexivity|]. split.
      * intros name Hne. rewrite dict_get_set.
        destruct (String.eqb_spec key name); congruence.
      * intros old' [= <-]. exists new. split; [exact Hadd|].
        rewrite dict_get_set, String.eqb_refl. reflexivity.
    + intros [= <-]. repeat split. intros old [=].
Qed.

(** The values written by [assign_each]: the [j]-th key receives the
    value at position [i + j]. *)
Lemma assign_each_spec (values : list pyval) (ks : list string) :
  forall (d : pydict pyval) (i : nat),
    NoDup ks -> (forall k, k ∈ ks -> k ∈ dict_keys d) ->
    (i + length ks <= length values)%nat ->
    exists d',
      assign_each d ks i values = Ok d' /\
      dict_keys d' = dict_keys d /\
      (forall j k, ks !! j = Some k -> dict_get d' k = values !! (i + j)%nat) /\
      (forall k, k ∉ ks -> dict_get d' k = dict_get d k).
Proof.
  induction ks as [|k0 ks IH]; intros d i Hnd Hks Hlen; simpl.
  - exists d. split; [reflexivity|]. split; [reflexivity|].
    split; [intros j k [=] | reflexivity].
  - apply NoDup_cons in Hnd as [Hk0 Hnd]. simpl in Hlen.
    destruct (lookup_lt_is_Some_2 values i ltac:(lia)) as [v Hv].
    rewrite getitem_nat, Hv. cbv [mbind result_bind].
    assert (Hin0 : k0 ∈ dict_keys d) by apply Hks, list_elem_of_here.
    destruct (IH (dict_set d k0 v) (S i) Hnd) as (d' & Hrun & Hkeys & Hget & Hrest).
    { intros k Hk. rewrite dict_keys_set by exact Hin0.
      apply Hks, list_elem_of_further, Hk. }
    { lia. }
    exists d'. split; [exact Hrun|]. split.
    { rewrite Hkeys. apply dict_keys_set, Hin0. }
    split.
    + intros [|j] k Hk; simpl in Hk.
      * injection Hk as <-. rewrite (Hrest k0 Hk0), dict_get_set, String.eqb_refl.
        rewrite Nat.add_0_r, Hv. reflexivity.
      * rewrite (Hget j k Hk). f_equal. lia.
    + intros k Hk. apply not_elem_of_cons in Hk as [Hne Hk].
      rewrite (Hrest k Hk), dict_get_set.
      destruct (String.eqb_spec k0 k); congruence.
Qed.

Lemma assign_each_short (values : list pyval) (ks : list string) :
  forall (d : pydict pyval) (i : nat),
    (i <= length values < i + length ks)%nat ->
    assign_each d ks i values = Raise IndexError.
Proof.
  induction ks as [|k0 ks IH]; intros d i Hlen; simpl in *; [lia|].
  rewrite getitem_nat. destruct (values !! i) as [v|] eqn:Hv; [|reflexivity].
  cbv [mbind result_bind]. apply IH.
  apply lookup_lt_Some in Hv. lia.
Qed.

(** X5. [set_datatarget_values] hands the values out in the ascending
    order of the names: with at least as many values as datatargets the
    [j]-th name in that order receives the [j]-th value, surplus values
    are ignored and the names stay; with fewer values the call raises
    [IndexError]. *)
Theorem dict_set_datatarget_values_by_sorted_name (self : t)
  (values : list pyval) :
  NoDup (dict_keys (datatargets self)) ->
  let names := get_available_datatargets self in
  ((length values < length names)%nat ->
   set_datatarget_values self values = Raise IndexError) /\
  ((length names <= length values)%nat ->
   exists self',
     set_datatarget_values self values = Ok self' /\
     dict_keys (datatargets self') = dict_keys (datatargets self) /\
     datasources self' = datasources self /\
     datatarget_feedback self' = datatarget_feedback self /\
     forall j name, names !! j = Some name ->
       dict_get (datatargets self') name = values !! j).
Proof.
  intros Hnd names. unfold set_datatarget_values. fold names. split.
  - intros Hlen. rewrite assign_each_short by lia. reflexivity.
  - intros Hlen.
    destruct (assign_each_spec values names (datatargets self) 0)
      as (d' & -> & Hkeys & Hget & _).
    + unfold names, get_available_datatargets.
      rewrite (sorted_perm (dict_keys (datatargets self))). exact Hnd.
    + intros k Hk. unfold names, get_available_datatargets in Hk.
      rewrite (sorted_perm (dict_keys (datatargets self))) in Hk. exact Hk.
    + lia.
    + eexists. split; [reflexivity|]. simpl. repeat split; [exact Hkeys|].
      intros j name Hj. exact (Hget j name Hj).
Qed.

End DictWriters.

(** ** The [Default] adapter under [update] *)

(** X6. One [update] of the [Default] adapter, whose hook draws the
    sample [u]: a non-zero echo target is copied into the echo feedback
    (a zero one leaves the feedback as it was), [static_on] is 1,
    [random] is the sample, and afterwards every datatarget is 0. *)
Theorem default_update_echoes (u : float) (self : WorldAdapter.t) (echo : pyval) :
  dict_get (WorldAdapter.datatargets self) "echo" = Some echo ->
  exists self',
    update (H := WorldAdapter.class (Default.update_data_sources_and_targets u)) self =
      ([Call_update_data_sources_and_targets; Call_reset_datatargets], Ok self') /\
    dict_get (WorldAdapter.datatarget_feedback self') "echo" =
      (if Default.ne0 echo then Some echo
       else dict_get (WorldAdapter.datatarget_feedback self) "echo") /\
    dict_get (WorldAdapter.datasources self') "static_on" = Some (PyInt 1) /\
    dict_get (WorldAdapter.datasources self') "random" = Some (PyFloat u) /\
    forall name,
      dict_get (WorldAdapter.datatargets self') name =
      match dict_get (WorldAdapter.datatargets self) name with
      | Some _ => Some (PyInt 0)
      | None => None
      end.
Proof.
  intros Hecho. eexists.
  unfold update, invoke, mbind, traced_bind. simpl.
  unfold Default.update_data_sources_and_targets, dict_item.
  rewrite Hecho. cbv [mbind result_bind].
  split; [reflexivity|]. simpl. split; [|split; [|split]].
  - destruct (Default.ne0 echo); [|reflexivity].
    rewrite dict_get_set. reflexivity.
  - rewrite !dict_get_set. reflexivity.
  - rewrite dict_get_set. reflexivity.
  - intros name.
    destruct (dict_set_all (WorldAdapter.datatargets self)
                (dict_keys (WorldAdapter.datatargets self)) (PyInt 0))
      as [_ Hget]; [auto|].
    rewrite Hget.
    destruct (dict_get (WorldAdapter.datatargets self) name) as [v|] eqn:E.
    + rewrite bool_decide_eq_true_2; [reflexivity|].
      apply dict_get_keys. rewrite E. eauto.
    + rewrite bool_decide_eq_false_2; [reflexivity|].
      intros Hin%dict_get_keys. rewrite E in Hin. destruct Hin as [? [=]].
Qed.

(** ** Groups of the array adapter *)

Section Groups.
Import Np Registration ArrayWorldAdapter.

(** A slice that lies within the buffer. *)
Definition within (s : slice) (buffer : list float) : Prop :=
  (start s <= stop s <= length buffer)%nat.

Lemma getslice_length (buffer : list float) (s : slice) :
  within s buffer -> length (getslice buffer s) = (stop s - start s)%nat.
Proof.
  intros [H1 H2]. unfold getslice. rewrite length_take, length_drop. lia.
Qed.

(** Assigning as many values as the slice has slots: the slice then
    reads these values and the slots outside it are unchanged. *)
Lemma assign_slice_exact (buffer : list float) (s : slice) (values : list float) :
  within s buffer -> length values = (stop s - start s)%nat ->
  let buffer' := take (start s) buffer ++ values ++ drop (stop s) buffer in
  assign_slice buffer s values = Ok buffer' /\
  length buffer' = length buffer /\
  getslice buffer' s = values /\
  forall i, (i < start s \/ stop s <= i)%nat -> buffer' !! i = buffer !! i.
Proof.
  intros [H1 H2] Hlen buffer'. unfold assign_slice.
  rewrite (Nat.min_l (start s)), (Nat.min_l (stop s)), Nat.max_r by lia.
  destruct (decide (length values = (stop s - start s)%nat)); [|contradiction].
  split; [reflexivity|].
  assert (Htake : length (take (start s) buffer) = start s)
    by (rewrite length_take; lia).
  split; [|split].
  - unfold buffer'. rewrite !length_app, Htake, length_drop. lia.
  - unfold getslice, buffer'.
    rewrite drop_app_length' by (symmetry; exact Htake).
    rewrite take_app_length' by lia. reflexivity.
  - intros i [Hi|Hi]; unfold buffer'.
    + rewrite lookup_app_l by lia. apply lookup_take_lt. exact Hi.
    + rewrite lookup_app_r by lia. rewrite lookup_app_r by lia.
      rewrite lookup_drop, Htake. f_equal. lia.
Qed.

(** Reading a registered group whose range lies within the buffer. *)
Lemma get_group_reshaped (groups : gmap string slice) (buffer : list float)
  (name : string) (s : slice) (shape : list Z) :
  groups !! name = Some s -> valid_shape shape ->
  get_group groups buffer name (Some shape) =
  if product shape =? Z.of_nat (length (getslice buffer s))
  then Ok (NdArray shape (getslice buffer s)) else Raise ValueError.
Proof.
  intros Hs [_ Hv]. unfold get_group, reshape. rewrite Hs.
  destruct (valid_shape_filter_known shape Hv) as [-> ->].
  rewrite (valid_shape_no_negative shape Hv). reflexivity.
Qed.

(** X7. Reading a group: an unknown group name raises [KeyError]; for a
    registered group and a valid shape the slice is returned reshaped
    exactly when the shape has as many elements as the group has slots,
    and [ValueError] is raised otherwise. *)
Theorem get_datasource_group_shape_must_match (self : t) (name : string)
  (shape : list Z) :
  valid_shape shape ->
  match _datasource_groups self !! name with
  | None => get_datasource_group self name (Some shape) = Raise KeyError /\
            get_datasource_group self name None = Raise KeyError
  | Some s =>
      let slots := getslice (datasource_values self) s in
      get_datasource_group self name None =
        Ok (NdArray [Z.of_nat (length slots)] slots) /\
      (product shape = Z.of_nat (length slots) ->
       get_datasource_group self name (Some shape) = Ok (NdArray shape slots)) /\
      (product shape <> Z.of_nat (length slots) ->
       get_datasource_group self name (Some shape) = Raise ValueError)
  end.
Proof.
  intros Hv. unfold get_datasource_group.
  destruct (_datasource_groups self !! name) as [s|] eqn:Hs.
  - cbv zeta. rewrite (get_group_reshaped _ _ _ s shape Hs Hv).
    split; [unfold get_group; rewrite Hs; reflexivity|]. split.
    + intros ->. rewrite Z.eqb_refl. reflexivity.
    + intros Hne. destruct (Z.eqb_spec (product shape)
        (Z.of_nat (length (getslice (datasource_values self) s))));
        [contradiction|reflexivity].
  - unfold get_group. rewrite Hs. split; reflexivity.
Qed.

(** Writing a whole group and reading it back, on any of the buffers. *)
Lemma set_group_then_get_group (groups : gmap string slice)
  (buffer : list float) (name : string) (s : slice) (values : ndarray) :
  groups !! name = Some s -> within s buffer ->
  size values = (stop s - start s)%nat ->
  exists buffer',
    set_group groups buffer name values = Ok buffer' /\
    length buffer' = length buffer /\
    get_group groups buffer' name None =
      Ok (NdArray [Z.of_nat (size values)] (flatten values)) /\
    (forall shape, valid_shape shape -> product shape = Z.of_nat (size values) ->
       get_group groups buffer' name (Some shape) =
       Ok (NdArray shape (flatten values))) /\
    forall i, (i < start s \/ stop s <= i)%nat -> buffer' !! i = buffer !! i.
Proof.
  intros Hs Hin Hsize.
  destruct (assign_slice_exact buffer s (flatten values) Hin Hsize)
    as (Hassign & Hlen & Hget & Hframe).
  eexists. unfold set_group. rewrite Hs. split; [exact Hassign|].
  split; [exact Hlen|]. split; [|split; [|exact Hframe]].
  - unfold get_group. rewrite Hs, Hget. reflexivity.
  - intros shape Hv Hp. rewrite (get_group_reshaped _ _ _ s shape Hs Hv).
    rewrite Hget, Hp. unfold size, flatten. rewrite Z.eqb_refl. reflexivity.
Qed.

(** X8. [set_datasource_group] followed by [get_datasource_group]
    returns the values written, flat or in any valid shape of the same
    size, and the slots outside the group's range keep their values. *)
Theorem set_datasource_group_then_get (self : t) (name : string) (s : slice)
  (values : ndarray) :
  _datasource_groups self !! name = Some s ->
  within s (datasource_values self) ->
  size values = (stop s - start s)%nat ->
  exists self',
    set_datasource_group self name values = Ok self' /\
    get_datasource_group self' name None =
      Ok (NdArray [Z.of_nat (size values)] (flatten values)) /\
    (forall shape, valid_shape shape -> product shape = Z.of_nat (size values) ->
       get_datasource_group self' name (Some shape) =
       Ok (NdArray shape (flatten values))) /\
    (forall i, (i < start s \/ stop s <= i)%nat ->
       datasource_values self' !! i = datasource_values self !! i) /\
    length (datasource_values self') = length (datasource_values self) /\
    datasource_names self' = datasource_names self.
Proof.
  intros Hs Hin Hsize.
  destruct (set_group_then_get_group _ _ name s values Hs Hin Hsize)
    as (buffer' & Hset & Hlen & Hflat & Hshaped & Hframe).
  exists (with_datasource_values self buffer').
  unfold set_datasource_group. rewrite Hset.
  split; [reflexivity|]. repeat split; assumption.
Qed.

(** X9. [add_to_datatarget_group] does not add: whatever the group held,
    it afterwards reads exactly the values passed, and the feedback
    buffer is untouched; [set_datatarget_feedback_group] likewise writes
    the feedback buffer and leaves the targets untouched. *)
Theorem add_to_datatarget_group_replaces (self : t) (name : string) (s : slice)
  (values : ndarray) :
  _datatarget_groups self !! name = Some s ->
  within s (datatarget_values self) ->
  within s (datatarget_feedback_values self) ->
  size values = (stop s - start s)%nat ->
  (exists self',
     add_to_datatarget_group self name values = Ok self' /\
     get_datatarget_group self' name None =
       Ok (NdArray [Z.of_nat (size values)] (flatten values)) /\
     datatarget_feedback_values self' = datatarget_feedback_values self) /\
  (exists self',
     set_datatarget_feedback_group self name values = Ok self' /\
     get_datatarget_feedback_group self' name None =
       Ok (NdArray [Z.of_nat (size values)] (flatten values)) /\
     datatarget_values self' = datatarget_values self).
Proof.
  intros Hs Hin Hinf Hsize. split.
  - destruct (set_group_then_get_group _ _ name s values Hs Hin Hsize)
      as (buffer' & Hset & _ & Hflat & _).
    exists (with_datatarget_values self buffer').
    unfold add_to_datatarget_group. rewrite Hset.
    split; [reflexivity|]. split; [exact Hflat|reflexivity].
  - destruct (set_group_then_get_group _ _ name s values Hs Hinf Hsize)
      as (buffer' & Hset & _ & Hflat & _).
    exists (with_datatarget_feedback_values self buffer').
    unfold set_datatarget_feedback_group. rewrite Hset.
    split; [reflexivity|]. split; [exact Hflat|reflexivity].
Qed.

(** X10. The size check of the group writers is NumPy's broadcasting: an
    array of one element fills every slot of the group, an array of any
    other size than the group's raises [ValueError], and an unknown
    group name raises [KeyError]. *)
Theorem set_datasource_group_sizes (self : t) (name : string) (values : ndarray) :
  match _datasource_groups self !! name with
  | None => set_datasource_group self name values = Raise KeyError
  | Some s =>
      within s (datasource_values self) ->
      let n := (stop s - start s)%nat in
      (size values <> n -> size values <> 1%nat ->
       set_datasource_group self name values = Raise ValueError) /\
      (forall x, flatten values = [x] ->
       exists self',
         set_datasource_group self name values = Ok self' /\
         get_datasource_group self' name None =
           Ok (NdArray [Z.of_nat n] (repeat x n)))
  end.
Proof.
  destruct (_datasource_groups self !! name) as [s|] eqn:Hs;
    [|unfold set_datasource_group, set_group; rewrite Hs; reflexivity].
  intros [H1 H2] n. unfold set_datasource_group, set_group. rewrite Hs.
  unfold assign_slice.
  rewrite (Nat.min_l (start s)), (Nat.min_l (stop s)), Nat.max_r by lia.
  fold n. split.
  - intros Hn H1'. unfold size, flatten in *.
    destruct (decide (length (data values) = n)); [contradiction|].
    destruct (data values) as [|x [|y l]]; simpl in *; try reflexivity. lia.
  - intros x Hx. rewrite Hx.
    destruct (assign_slice_exact (datasource_values self) s (repeat x n))
      as (_ & _ & Hget & _); [split; assumption|apply repeat_length|].
    exists (with_datasource_values self
              (take (start s) (datasource_values self) ++ repeat x n
                 ++ drop (stop s) (datasource_values self))).
    split.
    + destruct (decide (length [x] = n)) as [Hn|Hn]; [|reflexivity].
      simpl in Hn. rewrite <- Hn. reflexivity.
    + unfold get_datasource_group, get_group. simpl. rewrite Hs, Hget.
      rewrite repeat_length. reflexivity.
Qed.

End Groups.

(** ** The calls of the array adapter, and what they all preserve *)

Module Api.
Import Np ArrayWorldAdapter.

(** A call of one of the methods of [ArrayWorldAdapter] that assign to
    the adapter. *)
Inductive api_call : Type :=
| Add_datasource (name : string) (initial_value : float)
| Add_datatarget (name : string) (initial_value : float)
| Add_datasource_group (name : string) (shape : list Z) (initial_values : initial)
| Add_datatarget_group (name : string) (shape : list Z) (initial_values : initial)
| Set_datasource_value (key : string) (value : float)
| Set_datatarget_value (key : string) (value : float)
| Add_to_datatarget (key : string) (value : float)
| Set_datatarget_feedback_value (key : string) (value : float)
| Set_datasource_group (name : string) (values : ndarray)
| Add_to_datatarget_group (name : string) (values : ndarray)
| Set_datatarget_feedback_group (name : string) (values : ndarray)
| Set_datasource_values (values : list float)
| Set_datatarget_values (values : list float)
| Add_datatarget_values (values : list float)
| Set_datatarget_feedback_values (values : list float).

Definition returned {A} (r : result A) : option A :=
  match r with Ok a => Some a | Raise _ => None end.

(** The adapter after the call, [None] when the call raises. *)
Definition perform (self : t) (c : api_call) : option t :=
  match c with
  | Add_datasource name v => Some (add_datasource self name v).2
  | Add_datatarget name v => Some (add_datatarget self name v).2
  | Add_datasource_group name shape iv =>
      snd <$> returned (add_datasource_group self name shape iv)
  | Add_datatarget_group name shape iv =>
      snd <$> returned (add_datatarget_group self name shape iv)
  | Set_datasource_value key v => returned (set_datasource_value self key v)
  | Set_datatarget_value key v => returned (set_datatarget_value self key v)
  | Add_to_datatarget key v => returned (add_to_datatarget self key v)
  | Set_datatarget_feedback_value key v =>
      returned (set_datatarget_feedback_value self key v)
  | Set_datasource_group name values =>
      returned (set_datasource_group self name values)
  | Add_to_datatarget_group name values =>
      returned (add_to_datatarget_group self name values)
  | Set_datatarget_feedback_group name values =>
      returned (set_datatarget_feedback_group self name values)
  | Set_datasource_values values => set_datasource_values self values
  | Set_datatarget_values values => set_datatarget_values self values
  | Add_datatarget_values values => add_datatarget_values self values
  | Set_datatarget_feedback_values values =>
      set_datatarget_feedback_values self values
  end.

Fixpoint perform_all (self : t) (cs : list api_call) : option t :=
  match cs with
  | [] => Some self
  | c :: cs => self ← perform self c; perform_all self cs
  end.

(** Names and buffers are index-aligned, there is one feedback slot per
    target slot, and every group's range lies within the names. *)
Record consistent (self : t) : Prop := Consistent {
  sources_aligned :
    length (datasource_names self) = length (datasource_values self);
  targets_aligned :
    length (datatarget_names self) = length (datatarget_values self);
  feedback_aligned :
    length (datatarget_values self) = length (datatarget_feedback_values self);
  source_groups_within :
    forall name s, _datasource_groups self !! name = Some s ->
      (start s <= stop s <= length (datasource_names self))%nat;
  target_groups_within :
    forall name s, _datatarget_groups self !! name = Some s ->
      (start s <= stop s <= length (datatarget_names self))%nat
}.

End Api.

Ltac returned_ok H :=
  match type of H with
  | Api.returned ?r = Some _ =>
      let E := fresh "E" in
      destruct r eqn:E; simpl in H; [injection H as <- | discriminate H]
  | _ <$> Api.returned ?r = Some _ =>
      let E := fresh "E" in
      destruct r as [[? ?]|?] eqn:E; simpl in H;
      [injection H as <- | discriminate H]
  end.

Ltac bind_ok E :=
  cbv [mbind result_bind] in E;
  repeat match type of E with
  | match ?m with Ok _ => _ | Raise _ => _ end = Ok _ =>
      let Ex := fresh "Ex" in destruct m eqn:Ex; [|discriminate E]
  end.

Section Consistency.
Import Np ArrayWorldAdapter Api.

Lemma group_size_and_values_length (shape : list Z) (iv : initial) (size : Z)
  (values : list float) :
  group_size_and_values shape iv = Ok (size, values) ->
  length values = Z.to_nat size.
Proof.
  unfold group_size_and_values. cbv [mbind result_bind].
  destruct (truthy iv) as [[]|e] eqn:Ht; [| |discriminate].
  - destruct iv as [|a|l]; simpl; try discriminate.
    intros [= <- <-]. unfold flatten, Np.size. rewrite Nat2Z.id. reflexivity.
  - unfold zeros. destruct (product shape <? 0); [discriminate|].
    intros [= <- <-]. apply repeat_length.
Qed.

Lemma generate_names_length (basename : string) (size : Z) (shape : list Z)
  (names : list string) :
  _generate_names basename size shape = Ok names ->
  length names = Z.to_nat size.
Proof.
  unfold _generate_names. cbv [mbind result_bind].
  destruct (unravel_index _ _); [|discriminate].
  intros [= <-]. rewrite length_map, length_seq. reflexivity.
Qed.

Lemma setitem_length {A} (l l' : list A) (i : Z) (v : A) :
  setitem l i v = Ok l' -> length l' = length l.
Proof.
  unfold setitem. destruct (_ && _); [|discriminate].
  intros [= <-]. apply length_insert.
Qed.

Lemma assign_slice_length (a a' : list float) (s : slice) (values : list float) :
  assign_slice a s values = Ok a' -> length a' = length a.
Proof.
  unfold assign_slice.
  set (lo := (start s `min` length a)%nat).
  set (hi := (lo `max` (stop s `min` length a))%nat).
  assert (lo <= hi <= length a)%nat by lia.
  destruct (decide (length values = (hi - lo)%nat)) as [Hn|Hn].
  - intros [= <-]. rewrite !length_app, length_take, length_drop. lia.
  - destruct values as [|x [|y l]]; try discriminate.
    intros [= <-]. rewrite !length_app, length_take, length_drop, repeat_length. lia.
Qed.

Lemma set_group_length (groups : gmap string slice) (buffer buffer' : list float)
  (name : string) (values : ndarray) :
  set_group groups buffer name values = Ok buffer' ->
  length buffer' = length buffer.
Proof.
  unfold set_group. destruct (groups !! name); [|discriminate].
  apply assign_slice_length.
Qed.

Lemma within_longer (ns : list string) (extra : list string)
  (groups : gmap string slice) :
  (forall name s, groups !! name = Some s ->
     (start s <= stop s <= length ns)%nat) ->
  forall name s, groups !! name = Some s ->
    (start s <= stop s <= length (ns ++ extra))%nat.
Proof.
  intros H name s Hs. rewrite length_app. specialize (H name s Hs). lia.
Qed.

Lemma within_inserted (ns extra : list string) (groups : gmap string slice)
  (g : string) :
  (forall name s, groups !! name = Some s ->
     (start s <= stop s <= length ns)%nat) ->
  forall name s,
    <[g := Slice (length ns) (length ns + length extra)]> groups !! name = Some s ->
    (start s <= stop s <= length (ns ++ extra))%nat.
Proof.
  intros H name s. rewrite length_app, lookup_insert.
  destruct (decide (g = name)) as [->|Hne].
  - intros [= <-]. simpl. lia.
  - intros Hs. specialize (H name s Hs). lia.
Qed.

(** Every call that returns keeps the adapter consistent. *)
Ltac consistent_fields :=
  constructor; simpl;
  first [ apply within_longer; assumption
        | apply within_inserted; assumption
        | assumption
        | rewrite ?length_app, ?repeat_length, ?length_zip_with; simpl; lia ].

(** Every call that returns keeps the adapter consistent. *)
Lemma perform_consistent (self self' : t) (c : api_call) :
  consistent self -> perform self c = Some self' -> consistent self'.
Proof.
  intros [Hs Ht Hf Hsg Htg] Hc.
  destruct c; simpl in Hc; try returned_ok Hc.
  - injection Hc as <-. consistent_fields.
  - injection Hc as <-. consistent_fields.
  - unfold add_datasource_group in E. cbv [mbind result_bind] in E.
    destruct (group_size_and_values _ _) as [[size vals]|] eqn:Hsv; [|discriminate].
    destruct (_generate_names _ _ _) as [names|] eqn:Hn; [|discriminate].
    injection E as <- <-.
    apply group_size_and_values_length in Hsv.
    apply generate_names_length in Hn. rewrite <- Hn in *.
    consistent_fields.
  - unfold add_datatarget_group in E. cbv [mbind result_bind] in E.
    destruct (group_size_and_values _ _) as [[size vals]|] eqn:Hsv; [|discriminate].
    destruct (_generate_names _ _ _) as [names|] eqn:Hn; [|discriminate].
    injection E as <- <-.
    apply group_size_and_values_length in Hsv.
    apply generate_names_length in Hn. rewrite <- Hn in *.
    consistent_fields.
  - unfold set_datasource_value in E. bind_ok E. injection E as <-.
    apply setitem_length in Ex0. consistent_fields.
  - unfold set_datatarget_value in E. bind_ok E. injection E as <-.
    apply setitem_length in Ex0. consistent_fields.
  - unfold add_to_datatarget in E. bind_ok E. injection E as <-.
    apply setitem_length in Ex1. consistent_fields.
  - unfold set_datatarget_feedback_value in E. bind_ok E. injection E as <-.
    apply setitem_length in Ex0. consistent_fields.
  - unfold set_datasource_group in E. bind_ok E. injection E as <-.
    apply set_group_length in Ex. consistent_fields.
  - unfold add_to_datatarget_group in E. bind_ok E. injection E as <-.
    apply set_group_length in Ex. consistent_fields.
  - unfold set_datatarget_feedback_group in E. bind_ok E. injection E as <-.
    apply set_group_length in Ex. consistent_fields.
  - unfold set_datasource_values in Hc. destruct (decide _); [|discriminate].
    injection Hc as <-. consistent_fields.
  - unfold set_datatarget_values in Hc. destruct (decide _); [|discriminate].
    injection Hc as <-. consistent_fields.
  - unfold add_datatarget_values in Hc. destruct (decide _); [|discriminate].
    injection Hc as <-. consistent_fields.
  - unfold set_datatarget_feedback_values in Hc. destruct (decide _); [|discriminate].
    injection Hc as <-. consistent_fields.
Qed.

Lemma init_consistent : consistent init.
Proof. constructor; simpl; try reflexivity; intros name s; rewrite lookup_empty; discriminate. Qed.

(** X11. Whatever sequence of calls of the adapter's own methods has
    returned, starting from the empty adapter: the names and the value
    buffer have the same length, for sources and for targets, the
    feedback buffer has the length of the target buffer, and every
    group's range lies within the registered names. *)
Theorem reachable_adapter_is_consistent (cs : list api_call) (self : t) :
  perform_all init cs = Some self -> consistent self.
Proof.
  assert (Hgen : forall self0, consistent self0 ->
            perform_all self0 cs = Some self -> consistent self).
  { induction cs as [|c cs IH]; intros self0 H0; simpl.
    - intros [= <-]. exact H0.
    - destruct (perform self0 c) as [self1|] eqn:Hc; [|discriminate].
      simpl. apply IH. exact (perform_consistent self0 self1 c H0 Hc). }
  apply Hgen, init_consistent.
Qed.

End Consistency.

(** ** Registrations leave what is registered alone *)

(** The four registration methods, and the group name a call binds. *)
Definition registration (c : Api.api_call) : Prop :=
  match c with
  | Api.Add_datasource _ _ | Api.Add_datatarget _ _
  | Api.Add_datasource_group _ _ _ | Api.Add_datatarget_group _ _ _ => True
  | _ => False
  end.

Definition bound_source_group (c : Api.api_call) : option string :=
  match c with
  | Api.Add_datasource_group name _ _ => Some name
  | _ => None
  end.

Definition bound_target_group (c : Api.api_call) : option string :=
  match c with
  | Api.Add_datatarget_group name _ _ => Some name
  | _ => None
  end.

Section Stability.
Import Np ArrayWorldAdapter Api.

Lemma index_extended (names extra : list string) (name : string) :
  name ∈ names -> list_index (names ++ extra) name = list_index names name.
Proof.
  intros Hin. destruct (list_index_present names name Hin) as [i Hi].
  rewrite (list_index_app names extra name i Hi), Hi. reflexivity.
Qed.

Lemma read_extended (names extra : list string) (values slots : list float)
  (name : string) :
  name ∈ names -> (length names <= length values)%nat ->
  read (names ++ extra) (values ++ slots) name = read names values name.
Proof.
  intros Hin Hlen. destruct (list_index_present names name Hin) as [i Hi].
  pose proof (lookup_lt_Some _ _ _ (list_index_lookup names name i Hi)) as Hlt.
  unfold read. rewrite (list_index_app names extra name i Hi), Hi.
  cbv [mbind result_bind].
  rewrite !getitem_nat, lookup_app_l by lia. reflexivity.
Qed.

Lemma getslice_extended (values slots : list float) (s : slice) :
  (start s <= stop s <= length values)%nat ->
  getslice (values ++ slots) s = getslice values s.
Proof.
  intros [H1 H2]. unfold getslice.
  rewrite drop_app, take_app_le by (rewrite length_drop; lia). reflexivity.
Qed.

Lemma get_group_extended (groups : gmap string slice) (values slots : list float)
  (g : string) (shape : option (list Z)) :
  (forall s, groups !! g = Some s -> (start s <= stop s <= length values)%nat) ->
  get_group groups (values ++ slots) g shape = get_group groups values g shape.
Proof.
  intros H. unfold get_group. destruct (groups !! g) as [s|]; [|reflexivity].
  rewrite getslice_extended by auto. reflexivity.
Qed.

Lemma get_group_rebound (groups : gmap string slice) (values slots : list float)
  (name g : string) (slce : slice) (shape : option (list Z)) :
  Some name <> Some g ->
  (forall s, groups !! g = Some s -> (start s <= stop s <= length values)%nat) ->
  get_group (<[name := slce]> groups) (values ++ slots) g shape =
  get_group groups values g shape.
Proof.
  intros Hne H. rewrite <- (get_group_extended groups values slots g shape H).
  unfold get_group. rewrite lookup_insert_ne by congruence. reflexivity.
Qed.

Ltac stable_reading :=
  first [ reflexivity
        | apply index_extended; assumption
        | apply read_extended; [assumption | lia]
        | apply get_group_rebound; eauto
        | apply get_group_extended; eauto ].

(** X12. A registration that returns does not disturb what was
    registered before, on a consistent adapter: every name registered
    before keeps its index and reads the same source, target and feedback
    value (also when the same name is registered again: the name keeps
    addressing its first slot), and every group other than the one the
    call binds reads the same. *)
Theorem registration_keeps_readings (self self' : t) (c : api_call) :
  consistent self -> registration c -> perform self c = Some self' ->
  (forall name, name ∈ datasource_names self ->
     get_datasource_index self' name = get_datasource_index self name /\
     get_datasource_value self' name = get_datasource_value self name) /\
  (forall name, name ∈ datatarget_names self ->
     get_datatarget_index self' name = get_datatarget_index self name /\
     get_datatarget_value self' name = get_datatarget_value self name /\
     get_datatarget_feedback_value self' name =
       get_datatarget_feedback_value self name) /\
  (forall g shape, bound_source_group c <> Some g ->
     get_datasource_group self' g shape = get_datasource_group self g shape) /\
  (forall g shape, bound_target_group c <> Some g ->
     get_datatarget_group self' g shape = get_datatarget_group self g shape /\
     get_datatarget_feedback_group self' g shape =
       get_datatarget_feedback_group self g shape).
Proof.
  intros [Hs Ht Hf Hsg Htg] Hreg Hc.
  assert (Hsg' : forall g s, _datasource_groups self !! g = Some s ->
            (start s <= stop s <= length (datasource_values self))%nat)
    by (intros g s H; rewrite <- Hs; eauto).
  assert (Htg' : forall g s, _datatarget_groups self !! g = Some s ->
            (start s <= stop s <= length (datatarget_values self))%nat)
    by (intros g s H; rewrite <- Ht; eauto).
  assert (Hfg' : forall g s, _datatarget_groups self !! g = Some s ->
            (start s <= stop s <= length (datatarget_feedback_values self))%nat)
    by (intros g s H; rewrite <- Hf, <- Ht; eauto).
  unfold get_datasource_index, get_datatarget_index, get_datasource_value,
    get_datatarget_value, get_datatarget_feedback_value, get_datasource_group,
    get_datatarget_group, get_datatarget_feedback_group,
    get_datasource_index, get_datatarget_index.
  destruct c; try contradiction; simpl in Hc; try returned_ok Hc.
  - injection Hc as <-. simpl. repeat split; intros; stable_reading.
  - injection Hc as <-. simpl. repeat split; intros; stable_reading.
  - unfold add_datasource_group in E. cbv [mbind result_bind] in E.
    destruct (group_size_and_values _ _) as [[size vals]|] eqn:Hsv; [|discriminate].
    destruct (_generate_names _ _ _) as [names|] eqn:Hn; [|discriminate].
    injection E as <- <-. simpl. repeat split; intros; stable_reading.
  - unfold add_datatarget_group in E. cbv [mbind result_bind] in E.
    destruct (group_size_and_values _ _) as [[size vals]|] eqn:Hsv; [|discriminate].
    destruct (_generate_names _ _ _) as [names|] eqn:Hn; [|discriminate].
    injection E as <- <-. simpl. repeat split; intros; stable_reading.
Qed.

End Stability.

(** ** Groups created from a one-element array *)

Section OneElement.
Import Np Registration ArrayWorldAdapter.

(** The names generated for the first [size] offsets of a shape. *)
Lemma generate_names_prefix (basename : string) (size : Z) (shape : list Z) :
  positive_dims shape -> 0 <= size <= product shape ->
  _generate_names basename size shape =
  Ok (take (Z.to_nat size) (member_names basename shape)).
Proof.
  intros Hv Hsize. unfold _generate_names, unravel_index.
  rewrite (valid_shape_no_negative shape Hv).
  rewrite arange_in_range by lia.
  cbv [mbind result_bind]. f_equal. unfold member_names.
  rewrite firstn_map. unfold arange at 2. rewrite firstn_map, take_seq.
  rewrite Nat.min_l by lia. rewrite map_map.
  apply map_ext_in. intros i Hi%in_seq. f_equal. f_equal.
  rewrite <- (map_nth_seq str (unravel shape (Z.of_nat i)) 0), unravel_length.
  apply map_ext_in. intros j Hj%in_seq. f_equal.
  rewrite (nth_indep _ [] (map (fun i => nth 0 (unravel shape i) 0)
                               (arange (Z.to_nat size))))
    by (rewrite length_map, length_seq; lia).
  rewrite (map_nth (fun j => map (fun i => nth j (unravel shape i) 0) _)).
  rewrite seq_nth by lia.
  apply (nth_arange (fun i => nth (0 + j) (unravel shape i) 0)). lia.
Qed.

Lemma group_size_and_values_one (shape array_shape : list Z) (x : float) :
  let initial_values := InitialArray (NdArray array_shape [x]) in
  (PrimFloat.eqb x 0 = false ->
   group_size_and_values shape initial_values = Ok (1, [x])) /\
  (PrimFloat.eqb x 0 = true ->
   group_size_and_values shape initial_values =
   group_size_and_values shape NoInitial).
Proof.
  unfold group_size_and_values, truthy, truth. simpl.
  split; intros ->; reflexivity.
Qed.

(** X13. Initial values given as an array of one element [x]: when [x]
    is non-zero (or NaN) the group gets a single slot holding [x] and a
    single member name, whatever the shape asks for; when [x] is zero the
    array is ignored and the group is created as without initial
    values. *)
Theorem one_element_initial_values (self : t) (name : string)
  (shape array_shape : list Z) (x : float) :
  valid_shape shape ->
  let initial_values := InitialArray (NdArray array_shape [x]) in
  let n := length (datasource_names self) in
  (PrimFloat.eqb x 0 = false ->
   add_datasource_group self name shape initial_values =
   Ok (Slice n (n + 1),
       Make (base self)
            (datasource_names self ++ take 1 (member_names name shape))
            (datatarget_names self)
            (<[name := Slice n (n + 1)]> (_datasource_groups self))
            (_datatarget_groups self)
            (datasource_values self ++ [x])
            (datatarget_values self) (datatarget_feedback_values self))) /\
  (PrimFloat.eqb x 0 = true ->
   add_datasource_group self name shape initial_values =
   add_datasource_group self name shape NoInitial).
Proof.
  intros [Hne Hv] initial_values n. pose proof (product_pos shape Hv) as Hpos.
  destruct (group_size_and_values_one shape array_shape x) as [Hnz Hz].
  unfold add_datasource_group. fold initial_values in Hnz, Hz.
  split; intros Hx.
  - rewrite (Hnz Hx). cbv [mbind result_bind].
    rewrite (generate_names_prefix name 1 shape Hv) by lia. reflexivity.
  - rewrite (Hz Hx). reflexivity.
Qed.

End OneElement.

(** ** [DefaultArray] *)

Section DefaultArrayProperties.
Import Np Registration ArrayWorldAdapter.

Variable Rng : Type.
Variable randn : Rng -> nat -> list float * Rng.
Hypothesis randn_length : forall g n, length (randn g n).1 = n.

Lemma assign_slice_raises (a : list float) (s : slice) (values : list float)
  (e : exn) :
  assign_slice a s values = Raise e -> e = ValueError.
Proof.
  unfold assign_slice. destruct (decide _); [discriminate|].
  destruct values as [|x [|y l]]; congruence.
Qed.

Lemma assign_whole_mismatch (a values : list float) :
  length values <> length a -> length values <> 1%nat ->
  assign_slice a (whole a) values = Raise ValueError.
Proof.
  intros Hne H1. unfold assign_slice, whole. cbv zeta. cbn [start stop].
  assert (Hhi : ((0 `min` length a) `max` (length a `min` length a)
                 = length a)%nat) by lia.
  assert (Hlo : (0 `min` length a = 0)%nat) by lia.
  rewrite Hhi, Hlo, Nat.sub_0_r.
  destruct (decide (length values = length a)); [contradiction|].
  destruct values as [|x [|y l]]; simpl in *; try reflexivity. lia.
Qed.

(** X14. [DefaultArray.__init__] returns an adapter with 22 datasource
    names and a datasource buffer of a single slot (and 7 datatargets,
    all zero), and on it, as on every adapter whose datasource buffer
    does not have exactly 64 slots, [update_data_sources_and_targets]
    raises [ValueError]. *)
Theorem default_array_cannot_update (g : Rng) :
  (exists self g',
     DefaultArray.init Rng randn g = Ok (self, g') /\
     length (datasource_names self) = 22%nat /\
     length (datasource_values self) = 1%nat /\
     length (datatarget_names self) = 7%nat /\
     datatarget_values self = repeat 0%float 7 /\
     datatarget_feedback_values self = repeat 0%float 7 /\
     forall g0,
       DefaultArray.update_data_sources_and_targets Rng randn self g0 =
       Raise ValueError) /\
  (forall self g0,
     length (datasource_values self) <> 64%nat ->
     DefaultArray.update_data_sources_and_targets Rng randn self g0 =
     Raise ValueError).
Proof.
  assert (Hupdate : forall self g0,
             length (datasource_values self) <> 64%nat ->
             DefaultArray.update_data_sources_and_targets Rng randn self g0 =
             Raise ValueError).
  { intros self g0 Hlen. unfold DefaultArray.update_data_sources_and_targets.
    destruct (assign_slice _ _ _) as [feedback|e] eqn:Hfb.
    - cbv [mbind result_bind]. pose proof (randn_length g0 64) as Hsample.
      destruct (randn g0 64) as [sample g1]. simpl in Hsample |- *.
      rewrite assign_whole_mismatch by lia. reflexivity.
    - apply assign_slice_raises in Hfb as ->. reflexivity. }
  split; [|exact Hupdate].
  assert (Hv1 : valid_shape [3; 7]) by (split; [discriminate|repeat constructor; lia]).
  assert (Hv2 : valid_shape [2; 3]) by (split; [discriminate|repeat constructor; lia]).
  unfold DefaultArray.init.
  rewrite (add_datasource_group_valid _ "vision" [3; 7] Hv1).
  cbv [mbind result_bind].
  rewrite (add_datatarget_group_valid _ "action" [2; 3] Hv2).
  pose proof (randn_length g 1) as Hsample.
  destruct (randn g 1) as [sample g']. simpl in Hsample.
  eexists. exists g'. split; [reflexivity|]. simpl.
  repeat split; try exact Hsample.
  intros g0. apply Hupdate. simpl. lia.
Qed.

End DefaultArrayProperties.

(** * Further properties of the time-series world *)

Section Loading.
Import TimeSeries.

Lemma eqb_infinity (x : float) :
  PrimFloat.eqb x infinity = true -> x = infinity.
Proof.
  rewrite FloatAxioms.eqb_spec.
  change (Prim2SF infinity) with (SpecFloat.S754_infinity false).
  intros Hx. rewrite <- (SF2Prim_Prim2SF x).
  destruct (Prim2SF x) as [s|s| |s m e]; unfold SpecFloat.SFeqb in Hx; simpl in Hx;
    try discriminate; destruct s; try discriminate. reflexivity.
Qed.

Variable np_exp : float -> float.
Variables np_nanmean np_nanvar : list float -> float.

(** X15. The guard of the sigmoid clamps from below only: every input
    at or below [-cutoff], minus infinity included, is treated exactly
    as [-cutoff], so that [exp] is applied to [cutoff]; NaN and plus
    infinity are passed on unchanged. *)
Theorem sigm_clamps_below (x : float) :
  (PrimFloat.leb x (- cutoff) = true ->
   sigm1 np_exp x = (1 / (1 + np_exp cutoff))%float) /\
  sigm1 np_exp neg_infinity = (1 / (1 + np_exp cutoff))%float /\
  sigm1 np_exp nan = (1 / (1 + np_exp nan))%float /\
  sigm1 np_exp infinity = (1 / (1 + np_exp neg_infinity))%float.
Proof.
  split; [|repeat split; reflexivity].
  intros Hx. unfold sigm1.
  assert (Hclamp : PrimFloat.leb (nan_to_num x) (- cutoff) = true).
  { unfold nan_to_num.
    destruct (PrimFloat.is_nan x) eqn:Hnan.
    { apply is_nan_eq in Hnan. subst x. discriminate Hx. }
    destruct (PrimFloat.eqb x infinity) eqn:Hinf.
    { apply eqb_infinity in Hinf. subst x. discriminate Hx. }
    destruct (PrimFloat.eqb x neg_infinity); [reflexivity|exact Hx]. }
  rewrite Hclamp. reflexivity.
Qed.

(** X16. Loading keeps the shape of the archive's matrix: the same
    number of rows, every row of the same length, the same number of
    columns, so that [len_ts] is the number of columns of the archive;
    and it starts with shuffling on, without a permutation. *)
Theorem loading_keeps_shape (data : matrix) (ids : list string) (step : Z) :
  let self := init np_exp np_nanmean np_nanvar data ids step in
  map (@length float) (rows (timeseries self)) = map (@length float) (rows data) /\
  ncols (timeseries self) = ncols data /\
  len_ts self = Z.of_nat (ncols data) /\
  shuffle self = true /\ permutation self = None.
Proof.
  intros self. split; [|repeat split].
  unfold self, init. cbn [timeseries]. rewrite normalize_rows, map_map.
  apply map_ext. intros row. rewrite length_map. unfold data_z_row, row_z.
  repeat match goal with |- context [if ?b then _ else _] => destruct b end;
    rewrite ?length_map, ?repeat_length; reflexivity.
Qed.

End Loading.

Section ShuffledReads.
Import Np TimeSeries.

Variable Rng : Type.
Variable random_permutation : Rng -> list Z -> list Z * Rng.

(** X17. With shuffling on and no permutation drawn yet, a read at a
    wrapped position other than zero raises [AttributeError]: the
    permutation exists only after a read at position zero. *)
Theorem shuffled_read_before_first_draw (self : world) (g : Rng) :
  shuffle self = true -> permutation self = None ->
  len_ts self <> 0 -> (current_step self - 1) mod len_ts self <> 0 ->
  state Rng random_permutation self g = Raise AttributeError.
Proof.
  intros Hs Hp Hlen Ht. unfold state.
  rewrite (state_index_keeps Rng random_permutation self g Hs Hlen Ht), Hp.
  reflexivity.
Qed.

End ShuffledReads.

(** ** [TimeSeriesRunner] *)

Section Runner.
Import Np TimeSeries.

(** The [j]-th identifier receives the value at position [idx + j]; other
    keys keep their value. *)
Lemma publish_spec (state : list float) (ids : list string) :
  forall (d : pydict pyval) (idx : nat),
    NoDup ids -> (idx + length ids <= length state)%nat ->
    exists d',
      TimeSeriesRunner.publish d ids idx state = Ok d' /\
      (forall j ID, ids !! j = Some ID ->
         dict_get d' ID = PyFloat <$> state !! (idx + j)%nat) /\
      (forall k, k ∉ ids -> dict_get d' k = dict_get d k).
Proof.
  induction ids as [|ID0 ids IH]; intros d idx Hnd Hlen; simpl.
  - exists d. split; [reflexivity|]. split; [intros j ID [=]|reflexivity].
  - apply NoDup_cons in Hnd as [Hfresh Hnd]. simpl in Hlen.
    destruct (lookup_lt_is_Some_2 state idx ltac:(lia)) as [v Hv].
    rewrite getitem_nat, Hv. cbv [mbind result_bind].
    destruct (IH (dict_set d ID0 (PyFloat v)) (S idx) Hnd ltac:(lia))
      as (d' & Hrun & Hget & Hrest).
    exists d'. split; [exact Hrun|]. split.
    + intros [|j] ID Hj; simpl in Hj.
      * injection Hj as <-.
        rewrite (Hrest ID0 Hfresh), dict_get_set, String.eqb_refl.
        rewrite Nat.add_0_r, Hv. reflexivity.
      * rewrite (Hget j ID Hj). do 2 f_equal. lia.
    + intros k Hk. apply not_elem_of_cons in Hk as [Hne Hk].
      rewrite (Hrest k Hk), dict_get_set.
      destruct (String.eqb_spec ID0 k); congruence.
Qed.

Lemma publish_short (state : list float) (ids : list string) :
  forall (d : pydict pyval) (idx : nat),
    (idx <= length state < idx + length ids)%nat ->
    TimeSeriesRunner.publish d ids idx state = Raise IndexError.
Proof.
  induction ids as [|ID0 ids IH]; intros d idx Hlen; simpl in *; [lia|].
  rewrite getitem_nat. destruct (state !! idx) as [v|] eqn:Hv; [|reflexivity].
  cbv [mbind result_bind]. apply IH. apply lookup_lt_Some in Hv. lia.
Qed.

Variable Rng : Type.
Variable random_permutation : Rng -> list Z -> list Z * Rng.

(** X18. Without shuffling, one update of the runner publishes the
    current column: the datasource named by the [j]-th identifier holds
    entry [j] of column [(step - 1) mod length], every other datasource,
    the targets, the feedback, the world and the generator are
    unchanged; with more identifiers than rows the update raises
    [IndexError]. *)
Theorem runner_publishes_current_column (self : TimeSeriesRunner.t) (g : Rng) :
  let w := TimeSeriesRunner.world self in
  let t := Z.to_nat ((current_step w - 1) mod len_ts w) in
  shuffle w = false ->
  rectangular (timeseries w) ->
  len_ts w = Z.of_nat (ncols (timeseries w)) -> 0 < len_ts w ->
  NoDup (ids w) ->
  ((length (rows (timeseries w)) < length (ids w))%nat ->
   TimeSeriesRunner.update_data_sources_and_targets Rng random_permutation self g
   = Raise IndexError) /\
  ((length (ids w) <= length (rows (timeseries w)))%nat ->
   exists self',
     TimeSeriesRunner.update_data_sources_and_targets Rng random_permutation self g
     = Ok (self', g) /\
     TimeSeriesRunner.world self' = w /\
     WorldAdapter.datatargets (TimeSeriesRunner.base self') =
       WorldAdapter.datatargets (TimeSeriesRunner.base self) /\
     WorldAdapter.datatarget_feedback (TimeSeriesRunner.base self') =
       WorldAdapter.datatarget_feedback (TimeSeriesRunner.base self) /\
     (forall j ID, ids w !! j = Some ID ->
        dict_get (WorldAdapter.datasources (TimeSeriesRunner.base self')) ID =
        PyFloat <$> column_at (timeseries w) t !! j) /\
     (forall k, k ∉ ids w ->
        dict_get (WorldAdapter.datasources (TimeSeriesRunner.base self')) k =
        dict_get (WorldAdapter.datasources (TimeSeriesRunner.base self)) k)).
Proof.
  intros w t Hshuffle Hrect Hlen Hpos Hnd.
  assert (Hstate : state Rng random_permutation w g =
                   Ok (column_at (timeseries w) t, w, g)).
  { unfold state, state_index, py_mod. rewrite Hshuffle.
    destruct (Z.eqb_spec (len_ts w) 0); [lia|]. cbv [mbind result_bind].
    rewrite (column_in_range _ ((current_step w - 1) mod len_ts w) Hrect).
    - reflexivity.
    - rewrite <- Hlen. apply Z.mod_pos_bound, Hpos. }
  assert (Hcol : length (column_at (timeseries w) t) = length (rows (timeseries w)))
    by apply length_map.
  unfold TimeSeriesRunner.update_data_sources_and_targets. fold w.
  rewrite Hstate. cbv [mbind result_bind]. split.
  - intros Hshort. rewrite publish_short by lia. reflexivity.
  - intros Hfit.
    destruct (publish_spec (column_at (timeseries w) t) (ids w)
                (WorldAdapter.datasources (TimeSeriesRunner.base self)) 0 Hnd
                ltac:(lia)) as (d' & -> & Hget & Hrest).
    eexists. split; [reflexivity|]. simpl. repeat split; assumption.
Qed.

End Runner.

(** [n] instances of the runner created on one world, in turn. *)
Fixpoint instantiate (n : nat) (cls : TimeSeriesRunner.class_attributes)
  (world : TimeSeries.world) : TimeSeriesRunner.class_attributes :=
  match n with
  | O => cls
  | S n => instantiate n (TimeSeriesRunner.init cls world).2 world
  end.

(** X19. [supported_datasources] is an attribute of the class, and each
    instance appends the identifiers of its world to it: after [n]
    instances on one world the list holds what it held before followed
    by [n] copies of the identifiers. *)
Theorem runner_instances_share_supported_datasources (n : nat)
  (cls : TimeSeriesRunner.class_attributes) (world : TimeSeries.world) :
  TimeSeriesRunner.supported_datasources (instantiate n cls world) =
    TimeSeriesRunner.supported_datasources cls
      ++ concat (replicate n (TimeSeries.ids world)) /\
  TimeSeriesRunner.supported_datatargets (instantiate n cls world) =
    TimeSeriesRunner.supported_datatargets cls.
Proof.
  revert cls. induction n as [|n IH]; intros cls; cbn [instantiate].
  - simpl. rewrite app_nil_r. split; reflexivity.
  - destruct (IH (TimeSeriesRunner.init cls world).2) as [-> ->]. simpl.
    rewrite <- app_assoc. split; reflexivity.
Qed.

(** * Member names address the slots of their group *)

Section MemberNames.
Import Stdlib.Strings.Ascii Np Registration ArrayWorldAdapter.

(** A string without the separator of [_generate_names]. *)
Fixpoint plain (s : string) : Prop :=
  match s with
  | EmptyString => True
  | String c s => c <> "_"%char /\ plain s
  end.

Lemma pretty_N_char_plain (x : N) : pretty_N_char x <> "_"%char.
Proof. unfold pretty_N_char. repeat case_match; discriminate. Qed.

Lemma pretty_N_go_plain (x : N) (s : string) : plain s -> plain (pretty_N_go x s).
Proof.
  revert s. induction (N.lt_wf_0 x) as [x _ IH]; intros s Hs.
  assert (x = 0 \/ 0 < x)%N as [->|Hx] by lia.
  - rewrite pretty_N_go_0. exact Hs.
  - rewrite pretty_N_go_step by exact Hx. apply IH.
    + apply N.div_lt; lia.
    + split; [apply pretty_N_char_plain|exact Hs].
Qed.

Lemma pretty_N_plain (x : N) : plain (pretty x).
Proof.
  unfold pretty, pretty_N. destruct (decide (x = 0%N)).
  - split; [discriminate|exact I].
  - apply pretty_N_go_plain. exact I.
Qed.

Lemma str_plain (z : Z) : plain (str z).
Proof.
  unfold str, pretty, pretty_Z. destruct z as [|p|p].
  - split; [discriminate|exact I].
  - apply pretty_N_plain.
  - split; [discriminate|apply pretty_N_plain].
Qed.

Lemma append_separator_inj (x y r1 r2 : string) :
  plain x -> plain y ->
  (x ++ String "_" r1)%string = (y ++ String "_" r2)%string -> x = y /\ r1 = r2.
Proof.
  revert y. induction x as [|c x IH]; intros [|c' y] Hx Hy; simpl.
  - intros [= ->]. split; reflexivity.
  - intros [= <- _]. destruct Hy as [Hc _]. contradiction.
  - intros [= -> _]. destruct Hx as [Hc _]. contradiction.
  - intros [= <- H]. destruct Hx as [_ Hx], Hy as [_ Hy].
    destruct (IH y Hx Hy H) as [-> ->]. split; reflexivity.
Qed.

Lemma concat_separator_inj (l1 l2 : list string) :
  length l1 = length l2 -> Forall plain l1 -> Forall plain l2 ->
  String.concat "_" l1 = String.concat "_" l2 -> l1 = l2.
Proof.
  revert l2. induction l1 as [|x [|x' l1] IH]; intros [|y [|y' l2]] Hlen H1 H2;
    try discriminate Hlen; simpl.
  - reflexivity.
  - intros ->. reflexivity.
  - apply Forall_cons in H1 as [Hx H1]. apply Forall_cons in H2 as [Hy H2].
    intros H. apply append_separator_inj in H as [-> H]; [|assumption..].
    f_equal. apply IH; [simpl in *; lia|assumption..].
Qed.

Lemma append_cancel (b x y : string) : (b ++ x)%string = (b ++ y)%string -> x = y.
Proof. induction b as [|c b IH]; simpl; [auto|]. intros [= H]. auto. Qed.

Lemma fold_right_product (shape : list Z) : fold_right Z.mul 1 shape = product shape.
Proof. unfold product. rewrite fold_left_mul. lia. Qed.

Lemma unravel_inj (shape : list Z) :
  positive_dims shape ->
  forall i j, 0 <= i < product shape -> 0 <= j < product shape ->
    unravel shape i = unravel shape j -> i = j.
Proof.
  induction 1 as [|d shape Hd Hv IH]; intros i j Hi Hj; simpl.
  - unfold product in *. simpl in *. lia.
  - rewrite fold_right_product. pose proof (product_pos shape Hv) as Hp.
    intros [= Hdiv Hrest]. apply IH in Hrest; try (apply Z.mod_pos_bound; lia).
    rewrite (Z.div_mod i (product shape)), (Z.div_mod j (product shape)) by lia.
    rewrite Hdiv, Hrest. reflexivity.
Qed.

(** The member names of a group are pairwise different. *)
Lemma member_names_NoDup (basename : string) (shape : list Z) :
  valid_shape shape -> List.NoDup (member_names basename shape).
Proof.
  intros [Hne Hv]. unfold member_names.
  apply Finite.Injective_map_NoDup_in.
  - intros i j Hi Hj. unfold arange in Hi, Hj.
    apply in_map_iff in Hi as (i' & <- & Hi%in_seq).
    apply in_map_iff in Hj as (j' & <- & Hj%in_seq).
    pose proof (unravel_length shape (Z.of_nat i')) as Li.
    pose proof (unravel_length shape (Z.of_nat j')) as Lj.
    destruct shape as [|d shape]; [contradiction|].
    destruct (unravel (d :: shape) (Z.of_nat i')) as [|a l] eqn:Ei; [discriminate|].
    destruct (unravel (d :: shape) (Z.of_nat j')) as [|b k] eqn:Ej; [discriminate|].
    cbn [map String.concat]. intros H. apply append_cancel in H.
    injection H as H.
    change (String.concat "_" (map str (a :: l)) =
            String.concat "_" (map str (b :: k))) in H.
    apply concat_separator_inj in H.
    + apply (unravel_inj (d :: shape) Hv); [lia..|].
      rewrite Ei, Ej.
      revert H. generalize (a :: l) (b :: k). clear.
      intros l1. induction l1 as [|x l1 IH]; intros [|y k0]; simpl;
        try discriminate; auto.
      intros [= Hxy H]. apply (inj pretty) in Hxy. f_equal; auto.
    + rewrite !length_map. simpl in *. lia.
    + apply Forall_map, Forall_forall. intros; apply str_plain.
    + apply Forall_map, Forall_forall. intros; apply str_plain.
  - unfold arange. apply Finite.Injective_map_NoDup; [|apply seq_NoDup].
    intros x y. apply Nat2Z.inj.
Qed.

Lemma list_index_NoDup (l : list string) (i : nat) (x : string) :
  List.NoDup l -> l !! i = Some x -> list_index l x = Ok i.
Proof.
  intros Hnd. revert i. induction Hnd as [|y l Hy Hnd IH]; intros i; [intros [=]|].
  destruct i as [|i]; simpl.
  - intros [= ->]. rewrite String.eqb_refl. reflexivity.
  - intros Hi. destruct (String.eqb_spec y x) as [->|Hne].
    + exfalso. apply Hy. apply list_elem_of_In. eapply list_elem_of_lookup_2, Hi.
    + rewrite (IH i Hi). reflexivity.
Qed.

Lemma list_index_fresh (l k : list string) (x : string) (i : nat) :
  x ∉ l -> list_index k x = Ok i -> list_index (l ++ k) x = Ok (length l + i)%nat.
Proof.
  intros Hx Hi. induction l as [|y l IH]; simpl; [exact Hi|].
  apply not_elem_of_cons in Hx as [Hne Hx].
  destruct (String.eqb_spec y x); [congruence|].
  rewrite (IH Hx). reflexivity.
Qed.

(** X20. A group registered (without initial values) under member names
    none of which is in use: the [i]-th member name, in row-major order
    of the coordinates, is the name of slot [start + i] of the group's
    range, the member names are pairwise different, and the range has one
    slot per member. *)
Theorem member_names_address_group_slots (self : t) (name : string)
  (shape : list Z) :
  valid_shape shape ->
  (forall m, m ∈ member_names name shape -> m ∉ datasource_names self) ->
  exists slce self',
    add_datasource_group self name shape NoInitial = Ok (slce, self') /\
    _datasource_groups self' !! name = Some slce /\
    (stop slce - start slce)%nat = length (member_names name shape) /\
    List.NoDup (member_names name shape) /\
    forall i m, member_names name shape !! i = Some m ->
      get_datasource_index self' m = Ok (start slce + i)%nat.
Proof.
  intros Hv Hfresh. rewrite (add_datasource_group_valid self name shape Hv).
  do 2 eexists. split; [reflexivity|]. cbn [_datasource_groups start stop].
  split; [apply lookup_insert_eq|]. split; [rewrite member_names_length; lia|].
  pose proof (member_names_NoDup name shape Hv) as Hnd. split; [exact Hnd|].
  intros i m Hi. unfold get_datasource_index. cbn [datasource_names].
  apply list_index_fresh.
  - apply Hfresh. eapply list_elem_of_lookup_2, Hi.
  - apply list_index_NoDup; assumption.
Qed.

End MemberNames.

(** * The observations of a shuffled window *)

Section ShuffledColumns.
Import Np TimeSeries.

Variable Rng : Type.
Variable random_permutation : Rng -> list Z -> list Z * Rng.

(** The world sets [current_step] to each of [steps] in turn and the
    adapter reads [state] once per step; the vectors read. *)
Fixpoint played (self : world) (g : Rng) (steps : list Z)
  : result (list (list float) * world * Rng) :=
  match steps with
  | [] => Ok ([], self, g)
  | s :: steps =>
      '(col, self, g) ← state Rng random_permutation (set_current_step self s) g;
      '(cols, self, g) ← played self g steps;
      Ok (col :: cols, self, g)
  end.

(** A read never changes the dataset. *)
Lemma state_index_timeseries (self self' : world) (g g' : Rng) (t : Z) :
  state_index Rng random_permutation self g = Ok (t, self', g') ->
  timeseries self' = timeseries self.
Proof.
  unfold state_index, py_mod. destruct (len_ts self =? 0); [discriminate|].
  cbv [mbind result_bind]. destruct (shuffle self).
  - destruct (_ =? 0).
    + destruct (random_permutation _ _) as [p g1]. simpl.
      destruct (getitem p _); [|discriminate]. intros [= _ <- _]. reflexivity.
    + destruct (permutation self); [|discriminate].
      destruct (getitem _ _); [|discriminate]. intros [= _ <- _]. reflexivity.
  - intros [= _ <- _]. reflexivity.
Qed.

(** The vectors read are the columns at the time indices visited. *)
Lemma played_visited (steps : list Z) :
  forall (self self' : world) (g g' : Rng) (ts : list Z),
    rectangular (timeseries self) ->
    visited Rng random_permutation self g steps = Ok (ts, self', g') ->
    Forall (fun t => 0 <= t < Z.of_nat (ncols (timeseries self))) ts ->
    played self g steps =
    Ok (map (fun t => column_at (timeseries self) (Z.to_nat t)) ts, self', g').
Proof.
  induction steps as [|s steps IH]; intros self self' g g' ts Hrect; simpl.
  - intros [= <- <- <-] _. reflexivity.
  - unfold state. cbv [mbind result_bind].
    destruct (state_index _ _ _ _) as [[[t self1] g1]|] eqn:Hread; [|discriminate].
    pose proof (state_index_timeseries _ _ _ _ _ Hread) as Hts. simpl in Hts.
    destruct (visited _ _ self1 g1 steps) as [[[ts' self2] g2]|] eqn:Hrest;
      [|discriminate].
    intros [= <- <- <-] Hrange. apply Forall_cons in Hrange as [Ht Hrange].
    rewrite Hts, (column_in_range _ t Hrect Ht).
    rewrite <- Hts in Hrect, Hrange.
    rewrite (IH self1 self2 g1 g2 ts' Hrect Hrest Hrange), Hts. reflexivity.
Qed.

Hypothesis random_permutation_permutes :
  forall (g : Rng) (l : list Z), Permutation (random_permutation g l).1 l.

(** The time indices visited in the window of steps
    [k*L + 1 .. (k+1)*L]. *)
Lemma window_visits (self : world) (g : Rng) (k : Z) :
  shuffle self = true -> 0 < len_ts self ->
  let idxs := arange (Z.to_nat (len_ts self)) in
  let drawn := random_permutation g idxs in
  exists self',
    visited Rng random_permutation self g
      (map (fun j => k * len_ts self + 1 + j) idxs) =
    Ok (drawn.1, self', drawn.2).
Proof.
  intros Hs Hpos idxs drawn. set (L := len_ts self) in *.
  pose proof (random_permutation_permutes g idxs) as Hperm. fold drawn in Hperm.
  assert (Hlen : length drawn.1 = Z.to_nat L).
  { rewrite (Permutation_length Hperm). unfold idxs, arange.
    rewrite length_map, length_seq. reflexivity. }
  unfold idxs, arange.
  destruct (Z.to_nat L) as [|n] eqn:HL; [lia|].
  cbn [seq map visited].
  set (self0 := set_current_step self (k * L + 1 + Z.of_nat 0)).
  assert (Ht : (current_step self0 - 1) mod len_ts self0 = 0).
  { simpl. fold L. replace (k * L + 1 + Z.of_nat 0 - 1) with (0 + k * L) by lia.
    rewrite Z_mod_plus_full. reflexivity. }
  rewrite (state_index_regenerates Rng random_permutation self0 g Hs)
    by (simpl; fold L; lia || exact Ht).
  change (len_ts self0) with L. rewrite HL.
  change (random_permutation g (arange (S n))) with drawn.
  cbv [mbind result_bind].
  rewrite (getitem_in_range drawn.1 0 0) by lia.
  destruct (visited_positions Rng random_permutation k drawn.1 n 1
              (set_permutation self0 drawn.1) drawn.2 Hs eq_refl)
    as (self' & Hrun & _);
    [change (L = Z.of_nat (length drawn.1)); lia | lia | lia |].
  change (len_ts (set_permutation self0 drawn.1)) with L in Hrun.
  rewrite Hrun. exists self'. do 3 f_equal. change (Z.to_nat 0) with 0%nat.
  rewrite firstn_all2 by (rewrite length_drop; lia).
  symmetry. apply (drop_nth drawn.1 0 0). lia.
Qed.

(** X21. With shuffling, the [L] reads of [state] for the steps
    [k*L + 1 .. (k+1)*L] return the columns of the loaded dataset in the
    order of the permutation drawn at the first of them: every column of
    the dataset is presented exactly once in the window. *)
Theorem shuffled_window_presents_every_column_once (self : world) (g : Rng)
  (k : Z) :
  shuffle self = true ->
  rectangular (timeseries self) ->
  len_ts self = Z.of_nat (ncols (timeseries self)) ->
  0 < len_ts self ->
  let L := len_ts self in
  let idxs := arange (Z.to_nat L) in
  let steps := map (fun j => k * L + 1 + j) idxs in
  let drawn := random_permutation g idxs in
  let columns := map (fun t => column_at (timeseries self) (Z.to_nat t)) in
  (exists self', played self g steps = Ok (columns drawn.1, self', drawn.2)) /\
  Permutation (columns drawn.1)
              (map (column_at (timeseries self)) (seq 0 (ncols (timeseries self)))).
Proof.
  intros Hs Hrect Hlen Hpos L idxs steps drawn columns.
  pose proof (random_permutation_permutes g idxs) as Hperm. fold drawn in Hperm.
  split.
  - destruct (window_visits self g k Hs Hpos) as [self' Hrun].
    exists self'. apply (played_visited _ _ _ _ _ _ Hrect Hrun).
    apply Forall_forall. intros t Ht%list_elem_of_In. fold idxs drawn in Ht.
    apply (Permutation_in _ Hperm) in Ht. unfold idxs, arange in Ht.
    apply in_map_iff in Ht as (j & <- & Hj%in_seq). fold L in Hlen. lia.
  - unfold columns. rewrite Hperm. unfold idxs, arange. rewrite map_map.
    unfold L. rewrite Hlen, Nat2Z.id.
    apply Permutation_refl'. apply map_ext. intros j. rewrite Nat2Z.id. reflexivity.
Qed.

End ShuffledColumns.

(** * The further properties on the example objects *)

Section Witnesses.
Import Np Registration ArrayWorldAdapter Api.

Lemma test_registered : "test" ∈ ["test"].
Proof. apply list_elem_of_here. Qed.

Lemma nope_unregistered : "nope" ∉ ["test"].
Proof. intros H%list_elem_of_In. destruct H as [H|[]]. discriminate H. Qed.

Lemma shape_2_3_valid : valid_shape [2; 3].
Proof. split; [discriminate|repeat constructor; lia]. Qed.

Lemma set_datasource_value_then_get_witness :
  exists self',
    set_datasource_value (registered_once "test") "test" 1%float = Ok self' /\
    datasource_names self' = ["test"] /\
    datatarget_values self' = [0%float] /\
    datatarget_feedback_values self' = [0%float] /\
    forall name,
      get_datasource_value self' name =
      if decide (name = "test") then Ok 1%float
      else get_datasource_value (registered_once "test") name.
Proof.
  apply (set_datasource_value_then_get (registered_once "test") "test" 1%float).
  - exact test_registered.
  - simpl. lia.
Defined.

Lemma set_datatarget_and_feedback_independent_witness :
  (exists self',
     set_datatarget_value (registered_once "test") "test" 1%float = Ok self' /\
     forall name,
       get_datatarget_value self' name =
         (if decide (name = "test") then Ok 1%float
          else get_datatarget_value (registered_once "test") name) /\
       get_datatarget_feedback_value self' name =
         get_datatarget_feedback_value (registered_once "test") name) /\
  (exists self',
     set_datatarget_feedback_value (registered_once "test") "test" 1%float = Ok self' /\
     forall name,
       get_datatarget_feedback_value self' name =
         (if decide (name = "test") then Ok 1%float
          else get_datatarget_feedback_value (registered_once "test") name) /\
       get_datatarget_value self' name =
         get_datatarget_value (registered_once "test") name).
Proof.
  apply (set_datatarget_and_feedback_independent
           (registered_once "test") "test" 1%float).
  - exact test_registered.
  - simpl. lia.
  - simpl. lia.
Defined.

Lemma array_add_to_datatarget_accumulates_witness :
  add_to_datatarget (registered_once "test") "nope" 1%float = Raise ValueError /\
  exists old self',
    get_datatarget_value (registered_once "test") "test" = Ok old /\
    add_to_datatarget (registered_once "test") "test" 1%float = Ok self' /\
    forall name,
      get_datatarget_value self' name =
      if decide (name = "test") then Ok (old + 1)%float
      else get_datatarget_value (registered_once "test") name.
Proof.
  split.
  - apply (array_add_to_datatarget_accumulates (registered_once "test") "nope").
    + simpl. lia.
    + exact nope_unregistered.
  - apply (array_add_to_datatarget_accumulates (registered_once "test") "test").
    + simpl. lia.
    + exact test_registered.
Defined.

Lemma vision_group : _datasource_groups with_groups !! "vision" = Some (Slice 1 7).
Proof. reflexivity. Qed.

Lemma action_group : _datatarget_groups with_groups !! "action" = Some (Slice 1 7).
Proof. reflexivity. Qed.

Lemma set_datasource_group_then_get_witness :
  exists self',
    set_datasource_group with_groups "vision" one_to_six = Ok self' /\
    get_datasource_group self' "vision" None =
      Ok (NdArray [6] [1; 2; 3; 4; 5; 6]%float) /\
    get_datasource_group self' "vision" (Some [3; 2]) =
      Ok (NdArray [3; 2] [1; 2; 3; 4; 5; 6]%float) /\
    datasource_values self' !! 0%nat = Some 0%float.
Proof.
  destruct (set_datasource_group_then_get with_groups "vision" (Slice 1 7)
              one_to_six vision_group)
    as (self' & Hset & Hflat & Hshaped & Hframe & _).
  - vm_compute. lia.
  - reflexivity.
  - exists self'. split; [exact Hset|]. split; [exact Hflat|]. split.
    + apply Hshaped; [split; [discriminate|repeat constructor; lia]|reflexivity].
    + rewrite Hframe by (simpl; lia). reflexivity.
Defined.

Lemma add_to_datatarget_group_replaces_witness :
  (exists self',
     add_to_datatarget_group with_groups "action" one_to_six = Ok self' /\
     get_datatarget_group self' "action" None =
       Ok (NdArray [6] [1; 2; 3; 4; 5; 6]%float) /\
     datatarget_feedback_values self' = datatarget_feedback_values with_groups) /\
  (exists self',
     set_datatarget_feedback_group with_groups "action" one_to_six = Ok self' /\
     get_datatarget_feedback_group self' "action" None =
       Ok (NdArray [6] [1; 2; 3; 4; 5; 6]%float) /\
     datatarget_values self' = datatarget_values with_groups).
Proof.
  apply (add_to_datatarget_group_replaces with_groups "action" (Slice 1 7)
           one_to_six action_group).
  - vm_compute. lia.
  - vm_compute. lia.
  - reflexivity.
Defined.

Lemma set_datasource_group_sizes_witness :
  set_datasource_group with_groups "vision" (NdArray [2] [1; 2]%float)
    = Raise ValueError /\
  exists self',
    set_datasource_group with_groups "vision" (NdArray [1] [9]%float) = Ok self' /\
    get_datasource_group self' "vision" None =
      Ok (NdArray [6] [9; 9; 9; 9; 9; 9]%float).
Proof.
  pose proof (set_datasource_group_sizes with_groups "vision"
                (NdArray [2] [1; 2]%float)) as H2.
  pose proof (set_datasource_group_sizes with_groups "vision"
                (NdArray [1] [9]%float)) as H1.
  rewrite vision_group in H1, H2.
  assert (Hin : within (Slice 1 7) (datasource_values with_groups))
    by (vm_compute; lia).
  split.
  - apply (proj1 (H2 Hin)); unfold size; simpl; lia.
  - exact (proj2 (H1 Hin) 9%float eq_refl).
Defined.

Lemma get_datasource_group_shape_must_match_witness :
  get_datasource_group with_groups "vision" (Some [3; 2]) =
    Ok (NdArray [3; 2] (repeat 0%float 6)) /\
  get_datasource_group with_groups "vision" (Some [2; 2]) = Raise ValueError /\
  get_datasource_group with_groups "sound" (Some [2; 2]) = Raise KeyError.
Proof.
  assert (Hv32 : valid_shape [3; 2]) by (split; [discriminate|repeat constructor; lia]).
  assert (Hv22 : valid_shape [2; 2]) by (split; [discriminate|repeat constructor; lia]).
  pose proof (get_datasource_group_shape_must_match with_groups "vision" [3; 2] Hv32) as Ha.
  pose proof (get_datasource_group_shape_must_match with_groups "vision" [2; 2] Hv22) as Hb.
  pose proof (get_datasource_group_shape_must_match with_groups "sound" [2; 2] Hv22) as Hc.
  rewrite vision_group in Ha, Hb.
  change (_datasource_groups with_groups !! "sound") with (@None slice) in Hc.
  split; [|split].
  - exact (proj1 (proj2 Ha) eq_refl).
  - apply (proj2 (proj2 Hb)). vm_compute. discriminate.
  - exact (proj1 Hc).
Defined.

(** Three calls on the empty adapter. *)
Definition three_calls : list api_call :=
  [Add_datasource "test" 0%float;
   Add_datasource_group "vision" [2; 3] NoInitial;
   Set_datasource_value "test" 1%float].

Lemma reachable_adapter_is_consistent_witness :
  exists self, perform_all init three_calls = Some self /\ consistent self.
Proof.
  destruct (perform_all init three_calls) as [self|] eqn:E.
  - exists self. split; [reflexivity|].
    exact (reachable_adapter_is_consistent three_calls self E).
  - vm_compute in E. discriminate E.
Defined.

Lemma registered_once_consistent : consistent (registered_once "test").
Proof.
  constructor; simpl; try reflexivity; intros name s; rewrite lookup_empty;
    discriminate.
Qed.

Lemma registration_keeps_readings_witness :
  let self' := (add_datasource (registered_once "test") "test" 5%float).2 in
  (add_datasource (registered_once "test") "test" 5%float).1 = 1%nat /\
  get_datasource_index self' "test" = Ok 0%nat /\
  get_datasource_value self' "test" = Ok 0%float.
Proof.
  intros self'.
  destruct (registration_keeps_readings (registered_once "test") self'
              (Add_datasource "test" 5%float) registered_once_consistent I eq_refl)
    as (Hsrc & _).
  destruct (Hsrc "test" test_registered) as [Hidx Hval].
  split; [reflexivity|]. split; [rewrite Hidx | rewrite Hval]; reflexivity.
Defined.

Lemma one_element_initial_values_witness :
  add_datasource_group init "vision" [2; 3] (InitialArray (NdArray [1] [7%float])) =
    Ok (Slice 0 1,
        Make WorldAdapter.init ["vision_0_0"] [] (<["vision" := Slice 0 1]> ∅) ∅
             [7%float] [] []) /\
  add_datasource_group init "vision" [2; 3] (InitialArray (NdArray [1] [0%float])) =
    add_datasource_group init "vision" [2; 3] NoInitial.
Proof.
  destruct (one_element_initial_values init "vision" [2; 3] [1] 7%float
              shape_2_3_valid) as [H7 _].
  destruct (one_element_initial_values init "vision" [2; 3] [1] 0%float
              shape_2_3_valid) as [_ H0].
  split; [exact (H7 eq_refl) | exact (H0 eq_refl)].
Defined.

Lemma constant_randn_length (g n : nat) : length (constant_randn g n).1 = n.
Proof. apply repeat_length. Qed.

Lemma default_array_cannot_update_witness :
  exists self g',
    DefaultArray.init nat constant_randn 0%nat = Ok (self, g') /\
    length (datasource_names self) = 22%nat /\
    length (datasource_values self) = 1%nat /\
    length (datatarget_names self) = 7%nat /\
    datatarget_values self = repeat 0%float 7 /\
    datatarget_feedback_values self = repeat 0%float 7 /\
    forall g0,
      DefaultArray.update_data_sources_and_targets nat constant_randn self g0 =
      Raise ValueError.
Proof.
  exact (proj1 (default_array_cannot_update nat constant_randn
                  constant_randn_length 0%nat)).
Defined.

Lemma member_names_address_group_slots_witness :
  exists slce self',
    add_datasource_group init "vision" [2; 3] NoInitial = Ok (slce, self') /\
    _datasource_groups self' !! "vision" = Some slce /\
    (stop slce - start slce)%nat = length (member_names "vision" [2; 3]) /\
    List.NoDup (member_names "vision" [2; 3]) /\
    forall i m, member_names "vision" [2; 3] !! i = Some m ->
      get_datasource_index self' m = Ok (start slce + i)%nat.
Proof.
  apply (member_names_address_group_slots init "vision" [2; 3] shape_2_3_valid).
  intros m _. apply not_elem_of_nil.
Defined.

End Witnesses.

Section DictWitnesses.
Import WorldAdapter.

Lemma default_update_echoes_witness :
  exists self',
    update (H := WorldAdapter.class
                   (Default.update_data_sources_and_targets 0.5%float)) echo_three =
      ([Call_update_data_sources_and_targets; Call_reset_datatargets], Ok self') /\
    dict_get (datatarget_feedback self') "echo" = Some (PyInt 3) /\
    dict_get (datasources self') "static_on" = Some (PyInt 1) /\
    dict_get (datasources self') "random" = Some (PyFloat 0.5%float) /\
    forall name,
      dict_get (datatargets self') name =
      match dict_get (datatargets echo_three) name with
      | Some _ => Some (PyInt 0)
      | None => None
      end.
Proof.
  exact (default_update_echoes 0.5%float echo_three (PyInt 3) eq_refl).
Defined.

(** A dictionary-based adapter with two datatargets, registered as b, a. *)
Definition two_targets : t :=
  Make [] [("b", PyInt 0); ("a", PyInt 0)] [].

Lemma dict_set_datatarget_values_by_sorted_name_witness :
  set_datatarget_values two_targets [PyInt 1] = Raise IndexError /\
  exists self',
    set_datatarget_values two_targets [PyInt 1; PyInt 2; PyInt 3] = Ok self' /\
    dict_get (datatargets self') "a" = Some (PyInt 1) /\
    dict_get (datatargets self') "b" = Some (PyInt 2) /\
    dict_keys (datatargets self') = ["b"; "a"].
Proof.
  assert (Hnd : NoDup (dict_keys (datatargets two_targets))).
  { apply NoDup_ListNoDup. repeat constructor; simpl; intuition discriminate. }
  split.
  - apply (dict_set_datatarget_values_by_sorted_name two_targets [PyInt 1] Hnd).
    simpl. lia.
  - destruct (proj2 (dict_set_datatarget_values_by_sorted_name two_targets
                       [PyInt 1; PyInt 2; PyInt 3] Hnd))
      as (self' & Hset & Hkeys & _ & _ & Hget); [simpl; lia|].
    exists self'. split; [exact Hset|].
    split; [exact (Hget 0%nat "a" eq_refl)|].
    split; [exact (Hget 1%nat "b" eq_refl)|exact Hkeys].
Defined.

End DictWitnesses.

Section PlaybackWitnesses.
Import Np TimeSeries.

Lemma playback_rectangular (shuffle : bool) (step : Z) :
  rectangular (timeseries (playback_world shuffle step)).
Proof. repeat constructor. Qed.

Lemma shuffled_read_before_first_draw_witness :
  state nat reversing (playback_world true 0) 0%nat = Raise AttributeError.
Proof.
  apply (shuffled_read_before_first_draw nat reversing (playback_world true 0) 0%nat);
    try reflexivity; simpl; discriminate.
Defined.

Lemma no_duplicate_ids : NoDup ["a"; "b"].
Proof. apply NoDup_ListNoDup. repeat constructor; simpl; intuition discriminate. Qed.

Lemma runner_publishes_current_column_witness :
  let self := TimeSeriesRunner.Make WorldAdapter.init (playback_world false 5) in
  exists self',
    TimeSeriesRunner.update_data_sources_and_targets nat reversing self 0%nat
      = Ok (self', 0%nat) /\
    dict_get (WorldAdapter.datasources (TimeSeriesRunner.base self')) "a"
      = Some (PyFloat 2) /\
    dict_get (WorldAdapter.datasources (TimeSeriesRunner.base self')) "b"
      = Some (PyFloat 5).
Proof.
  intros self.
  destruct (proj2 (runner_publishes_current_column nat reversing self 0%nat
                     eq_refl (playback_rectangular false 5) eq_refl eq_refl
                     no_duplicate_ids))
    as (self' & Hrun & _ & _ & _ & Hget & _); [simpl; lia|].
  exists self'. split; [exact Hrun|].
  split; [exact (Hget 0%nat "a" eq_refl) | exact (Hget 1%nat "b" eq_refl)].
Defined.

Lemma shuffled_window_presents_every_column_once_witness :
  (exists self',
     played nat reversing (playback_world true 0) 0%nat [4; 5; 6] =
     Ok ([[3; 6]; [2; 5]; [1; 4]]%float, self', 1%nat)) /\
  Permutation [[3; 6]; [2; 5]; [1; 4]]%float [[1; 4]; [2; 5]; [3; 6]]%float.
Proof.
  exact (shuffled_window_presents_every_column_once nat reversing
           reversing_permutes (playback_world true 0) 0%nat 1
           eq_refl (playback_rectangular true 0) eq_refl eq_refl).
Defined.

End PlaybackWitnesses.
